(** * The PDF embedding pipeline of [embedding_ray.py]

    A shallow embedding of the script's stages: text extraction
    ([convert_to_text]), chunk splitting ([split_text]), batched embedding
    ([Embed.__call__] under [map_batches]) and the final index write.

    Python values are modelled as follows: a [str] is a list of characters
    (code points below 256), an [int] is a [Z], a list is a [list], a raised
    exception is the [Raise] case of [result]. *)

From Stdlib Require Import String Ascii List ZArith Lia Bool Permutation.
Import ListNotations.

Open Scope Z_scope.

(** ** Python strings *)

Module Py.

Definition str := list ascii.

Definition lit (s : string) : str := list_ascii_of_string s.

(** [len(s)] *)
Definition len {A} (l : list A) : Z := Z.of_nat (length l).

Definition newline : ascii := "010"%char.
Definition space : ascii := " "%char.

(** [s.replace(old, new)] for one-character [old] and [new]. *)
Definition replace (old new : ascii) (s : str) : str :=
  map (fun c => if Ascii.eqb c old then new else c) s.

(** [c.isspace()] on the code points below 256: tab to carriage return,
    the four separators 28..31, the space, NEL and the no-break space. *)
Definition isspace (c : ascii) : bool :=
  let n := N_of_ascii c in
  ((9 <=? n) && (n <=? 13) || (28 <=? n) && (n <=? 32)
   || (n =? 133) || (n =? 160))%N.

(** A text without white space. *)
Definition solid (s : str) : Prop := forall c, In c s -> isspace c = false.

(** [s.startswith(prefix)] *)
Fixpoint startswith (prefix s : str) : bool :=
  match prefix, s with
  | [], _ => true
  | _ :: _, [] => false
  | p :: ps, c :: cs => Ascii.eqb p c && startswith ps cs
  end.

(** [s.endswith(suffix)] *)
Definition endswith (suffix s : str) : bool :=
  (length suffix <=? length s)%nat
  && startswith suffix (skipn (length s - length suffix) s).

(** Exceptions, by class. *)
Inductive exn : Type :=
| PdfStreamError          (* pypdf.errors.PdfStreamError *)
| PdfReadError            (* pypdf.errors.PdfReadError, its base class *)
| BinasciiError           (* binascii.Error *)
| RuntimeError            (* e.g. the accelerator is out of memory *)
| OtherError (name : string).

(** The outcome of a call: a value, or an exception that was raised. *)
Inductive result (A : Type) : Type :=
| Ok (a : A)
| Raise (e : exn).

Arguments Ok {A} a.
Arguments Raise {A} e.

Definition bytes := list Byte.byte.

(** [zip(xs, ys)] stops at the shorter list. *)
Definition zip {A B} (xs : list A) (ys : list B) : list (A * B) := combine xs ys.

End Py.

Import Py.


(** ** The splitter called by [split_text] *)

Module TextSplitter.

(** Modelled from the spec: [RecursiveCharacterTextSplitter.split_text], the
    routine that line 51 calls, is library code and is not under src/.
    Section 4.2 of the specification describes it: the page text is
    partitioned recursively, breaking by preference on paragraph boundaries,
    then on sentence and on word boundaries, and by a hard character cut as
    the last resort; every chunk has at most [chunk_size] characters, every
    chunk after the first overlaps the chunk before it by exactly
    [chunk_overlap] characters, the empty text gives no chunk and any other
    text at least one.  A chunk is a substring of the text (glossary).

    The boundaries in the order of preference: the end of a paragraph (an
    empty line), the end of a line, the end of a word; the empty separator
    stands for the hard cut. *)
Definition separators : list str :=
  [[newline; newline]; [newline]; [space]; []].

(** Modelled from the spec: the places where a chunk that starts the window
    may end on a boundary: the positions [p] beyond the first [overlap]
    characters such that the first [p] characters of the window end with the
    separator. *)
Definition cuts (separator window : str) (overlap : nat) : list nat :=
  filter (fun p => endswith separator (firstn p window))
         (seq (S overlap) (length window - overlap)).

(** Modelled from the spec: the last of these places, so that the chunk is
    as long as the boundary allows. *)
Definition last_cut (separator window : str) (overlap : nat) : option nat :=
  match rev (cuts separator window overlap) with
  | [] => None
  | p :: _ => Some p
  end.

(** Modelled from the spec: where the chunk that starts the window ends: on
    the first kind of boundary, in the order of preference, that the window
    has beyond its first [overlap] characters, and at the end of the window,
    the hard cut, when it has none. *)
Fixpoint choose_cut (overlap : nat) (seps : list str) (window : str) : nat :=
  match seps with
  | [] => length window
  | separator :: later =>
      match separator with
      | [] => length window
      | _ :: _ =>
          match last_cut separator window overlap with
          | Some p => p
          | None => choose_cut overlap later window
          end
      end
  end.

(** Modelled from the spec: the recursive partition.  A text of at most
    [size] characters is one chunk; a longer text gives the chunk that ends
    at the cut chosen in its first [size] characters, and the chunks of the
    text from [overlap] characters before that cut on.  [fuel] bounds the
    number of chunks; the length of the text is enough, since every chunk
    but the last moves on by one character at least ([split_from_fuel]). *)
Fixpoint split_from (size overlap fuel : nat) (text : str) : list str :=
  match fuel with
  | O => []
  | S fuel' =>
      match text with
      | [] => []
      | _ :: _ =>
          if (length text <=? size)%nat
          then [text]
          else
            let cut := choose_cut overlap separators (firstn size text) in
            firstn cut text
            :: split_from size overlap fuel' (skipn (cut - overlap) text)
      end
  end.

Definition chunks (size overlap : nat) (text : str) : list str :=
  split_from size overlap (length text) text.

(** Modelled from the spec: [split_text] of a splitter made with
    [chunk_size] and [chunk_overlap]. *)
Definition split_text (chunk_size chunk_overlap : Z) (text : str)
    : list str :=
  chunks (Z.to_nat chunk_size) (Z.to_nat chunk_overlap) text.

(** Two chunks share [n] characters of context: the last [n] characters of
    the first are the first [n] characters of the second. *)
Definition overlap_by (n : nat) (x y : str) : Prop :=
  (n <= length x)%nat /\ (n <= length y)%nat
  /\ skipn (length x - n) x = firstn n y.

(** [R] holds of every two consecutive elements. *)
Fixpoint adjacent {A} (R : A -> A -> Prop) (l : list A) : Prop :=
  match l with
  | [] => True
  | x :: rest =>
      match rest with
      | [] => True
      | y :: _ => R x y /\ adjacent R rest
      end
  end.

(** The text read back from its chunks: the first chunk, then every other
    chunk without its first [n] characters. *)
Definition rebuild (n : nat) (chunks : list str) : str :=
  match chunks with
  | [] => []
  | first :: rest => first ++ concat (map (skipn n) rest)
  end.

End TextSplitter.

(** ** The script *)

Module Pipeline.

(** What the run can change: the lines printed and the index saved by
    [save_local] under ["faiss_index"]. *)
Record world (index : Type) : Type := World {
  stdout : list string;
  faiss_index : option index
}.

Arguments World {index} stdout faiss_index.
Arguments stdout {index} w.
Arguments faiss_index {index} w.

Section Script.

(** The collaborators: the PDF reader, the embedding model and the index
    builder.  Each call returns a value or raises. *)
Variables pdf_document page vector index : Type.
Variable PdfReader : bytes -> result pdf_document.
Variable pages : pdf_document -> list page.
Variable extract_text : page -> result str.
Variable encode : list str -> result (list vector).
Variable from_embeddings : list (str * vector) -> result index.

(** A computation: from the state before to an outcome and the state after.
    What was printed or saved before an exception stays. *)
Definition M (A : Type) : Type := world index -> result A * world index.

Definition ret {A} (a : A) : M A := fun w => (Ok a, w).

Definition raise {A} (e : exn) : M A := fun w => (Raise e, w).

Definition bind {A B} (m : M A) (k : A -> M B) : M B :=
  fun w =>
    match m w with
    | (Ok a, w') => k a w'
    | (Raise e, w') => (Raise e, w')
    end.

Definition lift {A} (r : result A) : M A := fun w => (r, w).

Definition print (line : string) : M unit :=
  fun w => (Ok tt, World (stdout w ++ [line]) (faiss_index w)).

Definition save_local (vector_store : index) : M unit :=
  fun w => (Ok tt, World (stdout w) (Some vector_store)).

Notation "x <- m ;; k" := (bind m (fun x => k))
  (at level 61, m at next level, right associativity).
Notation "m ;;; k" := (bind m (fun _ => k))
  (at level 61, right associativity).

(** The loop of [convert_to_text] over the pages (lines 32 to 37); only
    [binascii.Error] is handled. *)
Fixpoint extract_pages (ps : list page) (text : list str) : M (list str) :=
  match ps with
  | [] => ret text
  | p :: rest =>
      match extract_text p with
      | Ok t => extract_pages rest (text ++ [t])
      | Raise BinasciiError =>
          print "parsing failed" ;;; extract_pages rest text
      | Raise e => raise e
      end
  end.

(** The texts of the pages that are extracted, in the order of the pages. *)
Definition extracted (ps : list page) : list str :=
  List.flat_map (fun p => match extract_text p with
                          | Ok t => [t]
                          | Raise _ => []
                          end) ps.

(** The pages skipped, and the state after the page loop: one line printed
    for each page skipped, the saved index untouched. *)
Definition skipped (ps : list page) : list page :=
  filter (fun p => match extract_text p with
                   | Raise BinasciiError => true
                   | _ => false
                   end) ps.

Definition after_pages (ps : list page) (w : world index) : world index :=
  World (stdout w ++ map (fun _ => "parsing failed"%string) (skipped ps))
        (faiss_index w).

(** A page is skipped when its extraction raises [binascii.Error]. *)
Definition page_ok_or_skipped (p : page) : Prop :=
  extract_text p = Raise BinasciiError \/ exists t, extract_text p = Ok t.

(** [convert_to_text] (lines 22 to 38); only [PdfStreamError] is handled
    around the reader. *)
Definition convert_to_text (pdf_bytes : bytes) : M (list str) :=
  match PdfReader pdf_bytes with
  | Ok pdf_doc => extract_pages (pages pdf_doc) []
  | Raise PdfStreamError => ret []
  | Raise e => raise e
  end.

(** A file that [convert_to_text] gets through: the reader refuses it with
    [PdfStreamError], or opens it and every page is extracted or skipped. *)
Definition file_ok (pdf_bytes : bytes) : Prop :=
  PdfReader pdf_bytes = Raise PdfStreamError
  \/ exists pdf_doc, PdfReader pdf_bytes = Ok pdf_doc
                     /\ Forall page_ok_or_skipped (pages pdf_doc).

(** The texts of the pages of a file that are extracted. *)
Definition texts_of (pdf_bytes : bytes) : list str :=
  match PdfReader pdf_bytes with
  | Ok pdf_doc => extracted (pages pdf_doc)
  | Raise _ => []
  end.

(** [ds.flat_map(fn)]: the rows that [fn] returns for each row of the
    dataset.  The runtime is free to take the rows in any order; [ds] lists
    them in the order in which they are taken, one after the other, and the
    rows returned come in that order.  What holds of the stage for every
    list, or for every permutation of a list, holds whatever the order.  An
    exception of [fn] ends the stage. *)
Fixpoint flat_map {A B} (fn : A -> M (list B)) (ds : list A) : M (list B) :=
  match ds with
  | [] => ret []
  | row :: rest =>
      out <- fn row ;;
      outs <- flat_map fn rest ;;
      ret (out ++ outs)
  end.

(** [split_text] (lines 47 to 54), over the splitter it is given. *)
Definition split_text_with (text_splitter : str -> list str) (page_text : str)
    : list str :=
  map (replace newline space) (text_splitter page_text).

Definition split_text : str -> list str :=
  split_text_with (TextSplitter.split_text 1000 100).

(** [Embed.__call__] (lines 69 to 76) *)
Definition Embed_call (text_batch : list str) : M (list (str * vector)) :=
  embeddings <- lift (encode text_batch) ;;
  ret (zip text_batch embeddings).

(** The encoder answers a batch with one vector for each of its texts. *)
Definition encodes (text_batch : list str) : Prop :=
  exists embeddings, encode text_batch = Ok embeddings
                     /\ length embeddings = length text_batch.

(** The batches of [map_batches]: [batch_size] rows each, the last one
    with what is left.  [room] is the number of rows the batch being filled
    can still take. *)
Fixpoint batch_rows {A} (batch_size room : nat) (batch rows : list A)
    : list (list A) :=
  match rows with
  | [] => match batch with
          | [] => []
          | _ :: _ => [batch]
          end
  | row :: rest =>
      match room with
      | S (S room') => batch_rows batch_size (S room') (batch ++ [row]) rest
      | _ => (batch ++ [row]) :: batch_rows batch_size batch_size [] rest
      end
  end.

Definition batches {A} (batch_size : nat) (rows : list A) : list (list A) :=
  batch_rows batch_size batch_size [] rows.

(** [ds.map_batches(fn, batch_size=...)] (lines 79 to 84): [fn] over the
    batches, taken like the rows of [flat_map]. *)
Definition map_batches {A B} (fn : list A -> M (list B)) (batch_size : nat)
    (ds : list A) : M (list B) :=
  flat_map fn (batches batch_size ds).

(** The stages up to the embedding (lines 43 and 59). *)
Definition chunks_of (documents : list bytes) : M (list str) :=
  page_texts <- flat_map convert_to_text documents ;;
  ret (List.flat_map split_text page_texts).

(** The whole run (lines 20 to 100), from the files read. *)
Definition main (documents : list bytes) : M unit :=
  chunks <- chunks_of documents ;;
  text_and_embeddings <- map_batches Embed_call 100 chunks ;;
  print "Creating FAISS Vector Index." ;;;
  vector_store <- lift (from_embeddings text_and_embeddings) ;;
  print "Saving FAISS index locally." ;;;
  save_local vector_store.

End Script.

End Pipeline.

(** ** Collaborators for the examples *)

Module Sample.

(** Two pages of 1200 and 300 characters, without white space. *)
Definition page_a : str := repeat "a"%char 1200.
Definition page_b : str := repeat "b"%char 300.

(** One page of 1500 characters, without white space. *)
Definition page_c : str := repeat "c"%char 1500.

(** A document is given by the outcome of the extraction of each page. *)
Definition pdf_document := list (result str).
Definition page := result str.
Definition vector := list Z.
Definition index := list (str * vector).

(** The empty file is not a readable container, a file that starts with NUL
    makes the reader fail with the base class of its errors, a file that
    starts with 0x01 has a page that cannot be decoded between two that can,
    a file that starts with 0x03 has three pages of text, one that starts
    with 0x04 has the pages [page_a] and [page_b], one that starts with 0x05
    has the page [page_c] and a blank page, any other file has one blank
    page and one page of text. *)
Definition PdfReader (b : bytes) : result pdf_document :=
  match b with
  | [] => Raise PdfStreamError
  | Byte.x00 :: _ => Raise PdfReadError
  | Byte.x01 :: _ => Ok [Ok (lit "one"); Raise BinasciiError; Ok (lit "three")]
  | Byte.x03 :: _ => Ok [Ok (lit "one"); Ok (lit "two"); Ok (lit "three")]
  | Byte.x04 :: _ => Ok [Ok page_a; Ok page_b]
  | Byte.x05 :: _ => Ok [Ok page_c; Ok []]
  | _ => Ok [Ok []; Ok (lit "some text")]
  end.

Definition pages (d : pdf_document) : list page := d.
Definition extract_text (p : page) : result str := p.

(** One number per text. *)
Definition encode (batch : list str) : result (list vector) :=
  Ok (map (fun t => [len t]) batch).

(** An encoder that fails on a batch of more than two texts. *)
Definition encode_small (batch : list str) : result (list vector) :=
  if (2 <? len batch) then Raise RuntimeError else encode batch.

Definition from_embeddings (pairs : list (str * vector)) : result index :=
  Ok pairs.

Definition w0 : Pipeline.world index := Pipeline.World [] None.

(** A reader whose documents have four pages: the second cannot be decoded,
    the extraction of the third fails with another error. *)
Definition PdfReader_failing_page (b : bytes) : result pdf_document :=
  Ok [Ok (lit "one"); Raise BinasciiError; Raise PdfStreamError;
      Ok (lit "four")].

(** An encoder that answers with one vector, whatever the batch. *)
Definition encode_one (batch : list str) : result (list vector) :=
  Ok [[len batch]].

(** An index builder that fails. *)
Definition from_embeddings_failing (pairs : list (str * vector))
    : result index :=
  Raise RuntimeError.

End Sample.

(** * Properties *)

(** ** Strings *)

Section StringFacts.

Lemma replace_length (old new : ascii) (s : str) :
  length (replace old new s) = length s.
Proof. apply length_map. Qed.

Lemma replace_absent (old new : ascii) (s : str) :
  ~ In old s -> replace old new s = s.
Proof.
  induction s as [| c s IH]; intros H; simpl; [reflexivity |].
  destruct (Ascii.eqb_spec c old) as [-> | _].
  - exfalso. apply H. now left.
  - f_equal. apply IH. intros H'. apply H. now right.
Qed.

Lemma replace_removes (old new : ascii) (s : str) :
  old <> new -> ~ In old (replace old new s).
Proof.
  intros Hn H. apply in_map_iff in H as [c [E _]].
  destruct (Ascii.eqb_spec c old) as [Hc | Hc]; congruence.
Qed.

Lemma replace_app (old new : ascii) (s t : str) :
  replace old new (s ++ t) = replace old new s ++ replace old new t.
Proof. apply map_app. Qed.

Lemma replace_firstn (old new : ascii) (n : nat) (s : str) :
  replace old new (firstn n s) = firstn n (replace old new s).
Proof. symmetry. apply firstn_map. Qed.

Lemma replace_skipn (old new : ascii) (n : nat) (s : str) :
  replace old new (skipn n s) = skipn n (replace old new s).
Proof. symmetry. apply skipn_map. Qed.

(** A separator found at the start or at the end of a text has its
    characters in the text. *)
Lemma startswith_In (sep s : str) (c : ascii) :
  startswith sep s = true -> In c sep -> In c s.
Proof.
  revert s. induction sep as [| p ps IH]; intros s H Hin; [destruct Hin |].
  destruct s as [| c0 cs]; simpl in H; [discriminate |].
  apply andb_true_iff in H as [E H]. apply Ascii.eqb_eq in E. subst c0.
  destruct Hin as [-> | Hin]; [now left | right; now apply IH].
Qed.

Lemma skipn_In {A} (n : nat) (l : list A) (x : A) :
  In x (skipn n l) -> In x l.
Proof.
  intros H. rewrite <- (firstn_skipn n l). apply in_or_app. now right.
Qed.

Lemma firstn_In {A} (n : nat) (l : list A) (x : A) :
  In x (firstn n l) -> In x l.
Proof.
  intros H. rewrite <- (firstn_skipn n l). apply in_or_app. now left.
Qed.

Lemma endswith_In (sep s : str) (c : ascii) :
  endswith sep s = true -> In c sep -> In c s.
Proof.
  unfold endswith. intros H Hin. apply andb_true_iff in H as [_ H].
  eapply skipn_In. eapply startswith_In; eassumption.
Qed.

Lemma solid_firstn (n : nat) (t : str) : solid t -> solid (firstn n t).
Proof. intros H c Hc. apply H. now apply firstn_In in Hc. Qed.

Lemma solid_skipn (n : nat) (t : str) : solid t -> solid (skipn n t).
Proof. intros H c Hc. apply H. now apply skipn_In in Hc. Qed.

Lemma solid_no_newline (s : str) : solid s -> ~ In newline s.
Proof. intros H Hin. apply H in Hin. discriminate Hin. Qed.

Lemma skipn_firstn_rest {A} (a b : nat) (l : list A) :
  (a <= b)%nat -> (a <= length l)%nat ->
  skipn a (firstn b l) ++ skipn b l = skipn a l.
Proof.
  intros Hab Hl. rewrite <- (firstn_skipn b l) at 3.
  rewrite skipn_app, length_firstn.
  replace (a - Nat.min b (length l))%nat with 0%nat by lia.
  reflexivity.
Qed.

End StringFacts.

(** ** Extraction *)

Section ExtractionFacts.

Variables pdf_document page index : Type.
Variable PdfReader : bytes -> result pdf_document.
Variable pages : pdf_document -> list page.
Variable extract_text : page -> result str.

Local Notation "'extract_pages'" :=
  (Pipeline.extract_pages page index extract_text).
Local Notation "'convert_to_text'" :=
  (Pipeline.convert_to_text pdf_document page index PdfReader pages
     extract_text).
Local Notation "'extracted'" := (Pipeline.extracted page extract_text).
Local Notation "'page_ok_or_skipped'" :=
  (Pipeline.page_ok_or_skipped page extract_text).
Local Notation "'after_pages'" :=
  (Pipeline.after_pages page index extract_text).

Lemma extracted_app (ps qs : list page) :
  extracted (ps ++ qs) = extracted ps ++ extracted qs.
Proof. apply flat_map_app. Qed.

(** The page loop reaches its end when every page is extracted or skipped. *)
Lemma extract_pages_total (ps : list page) :
  Forall page_ok_or_skipped ps ->
  forall text w,
    extract_pages ps text w = (Ok (text ++ extracted ps), after_pages ps w).
Proof.
  unfold Pipeline.after_pages.
  induction 1 as [| p ps Hp _ IH]; intros text w; simpl.
  - rewrite !app_nil_r. now destruct w.
  - destruct Hp as [Hp | [t Hp]]; rewrite Hp; simpl.
    + unfold Pipeline.bind, Pipeline.print; simpl.
      rewrite IH. simpl. now rewrite <- app_assoc.
    + rewrite IH. simpl. now rewrite <- app_assoc.
Qed.

End ExtractionFacts.

Section ConvertToText.

Variables pdf_document page index : Type.
Variable PdfReader : bytes -> result pdf_document.
Variable pages : pdf_document -> list page.
Variable extract_text : page -> result str.

Local Notation "'convert_to_text'" :=
  (Pipeline.convert_to_text pdf_document page index PdfReader pages
     extract_text).
Local Notation "'extracted'" := (Pipeline.extracted page extract_text).
Local Notation "'page_ok_or_skipped'" :=
  (Pipeline.page_ok_or_skipped page extract_text).
Local Notation "'after_pages'" :=
  (Pipeline.after_pages page index extract_text).

(** [convert_to_text] returns a sequence whenever the reader either opens
    the container or raises [PdfStreamError], and every page is either
    extracted or raises [binascii.Error]; a container refused with
    [PdfStreamError] gives the empty sequence and changes nothing. *)
Lemma convert_to_text_returns :
  forall (pdf_bytes : bytes) (w : Pipeline.world index),
    (PdfReader pdf_bytes = Raise PdfStreamError
     \/ exists pdf_doc, PdfReader pdf_bytes = Ok pdf_doc
                        /\ Forall page_ok_or_skipped (pages pdf_doc)) ->
    exists text w',
      convert_to_text pdf_bytes w = (Ok text, w')
      /\ (PdfReader pdf_bytes = Raise PdfStreamError -> text = [] /\ w' = w).
Proof.
  intros pdf_bytes w [E | [pdf_doc [E Hp]]]; unfold Pipeline.convert_to_text;
    rewrite E.
  - exists [], w. split; [reflexivity | auto].
  - eexists _, _. split.
    + apply (extract_pages_total page index extract_text _ Hp).
    + discriminate.
Qed.

(** C2, where the code fails: a container that the reader cannot read is
    skipped only when the reader says so with [PdfStreamError]; when it
    raises an exception of any other class, [convert_to_text] does not
    return the empty sequence but raises that exception. *)
Theorem convert_to_text_unreadable :
  forall (pdf_bytes : bytes) (e : exn) (w : Pipeline.world index),
    PdfReader pdf_bytes = Raise e ->
    convert_to_text pdf_bytes w
    = match e with
      | PdfStreamError => (Ok [], w)
      | _ => (Raise e, w)
      end.
Proof.
  intros pdf_bytes e w E. unfold Pipeline.convert_to_text. rewrite E.
  destruct e; reflexivity.
Qed.

(** C6: a page whose extraction raises the decoding error gives no entry,
    the loop goes on with the pages after it, and the texts of the other
    pages come out in the order of the pages; the skip is printed. *)
Theorem convert_to_text_skips_page :
  forall (pdf_bytes : bytes) (pdf_doc : pdf_document)
         (before after : list page) (bad : page) (w : Pipeline.world index),
    PdfReader pdf_bytes = Ok pdf_doc ->
    pages pdf_doc = before ++ bad :: after ->
    extract_text bad = Raise BinasciiError ->
    Forall page_ok_or_skipped (before ++ after) ->
    convert_to_text pdf_bytes w
    = (Ok (extracted before ++ extracted after), after_pages (pages pdf_doc) w)
    /\ In "parsing failed"%string
          (Pipeline.stdout (after_pages (pages pdf_doc) w)).
Proof.
  intros pdf_bytes pdf_doc before after bad w E Hpages Hbad Hothers.
  assert (Hall : Forall page_ok_or_skipped (pages pdf_doc)).
  { rewrite Hpages. apply Forall_app in Hothers as [Hb Ha].
    apply Forall_app. split; [exact Hb |].
    constructor; [now left | exact Ha]. }
  split.
  - unfold Pipeline.convert_to_text. rewrite E.
    rewrite (extract_pages_total page index extract_text _ Hall). simpl.
    rewrite Hpages at 1.
    rewrite extracted_app.
    unfold Pipeline.extracted at 2. simpl. rewrite Hbad. reflexivity.
  - unfold Pipeline.after_pages. simpl.
    apply in_or_app. right. apply in_map_iff. exists bad. split; [reflexivity |].
    unfold Pipeline.skipped. apply filter_In. split.
    + rewrite Hpages. apply in_or_app. right. now left.
    + now rewrite Hbad.
Qed.

(** Every page that is extracted gives one entry, the empty text included. *)
Lemma convert_to_text_keeps_page :
  forall (pdf_bytes : bytes) (pdf_doc : pdf_document)
         (texts : list str) (w : Pipeline.world index),
    PdfReader pdf_bytes = Ok pdf_doc ->
    Forall2 (fun p t => extract_text p = Ok t) (pages pdf_doc) texts ->
    convert_to_text pdf_bytes w = (Ok texts, w).
Proof.
  intros pdf_bytes pdf_doc texts w E H.
  unfold Pipeline.convert_to_text. rewrite E.
  assert (Hall : Forall page_ok_or_skipped (pages pdf_doc)
                 /\ extracted (pages pdf_doc) = texts
                 /\ Pipeline.skipped page extract_text (pages pdf_doc) = []).
  { induction H as [| p t ps ts Hp _ [IH1 [IH2 IH3]]]; [now repeat split |].
    repeat split.
    - constructor; [right; now exists t | exact IH1].
    - unfold Pipeline.extracted in *. simpl. rewrite Hp. simpl. now rewrite IH2.
    - simpl. rewrite Hp. exact IH3. }
  destruct Hall as [Hall [Hx Hs]].
  rewrite (extract_pages_total page index extract_text _ Hall).
  unfold Pipeline.after_pages. rewrite Hx, Hs. simpl.
  rewrite app_nil_r. now destruct w.
Qed.

(** The extraction stage never writes the index. *)
Lemma convert_to_text_index :
  forall (pdf_bytes : bytes) (w : Pipeline.world index),
    Pipeline.faiss_index (snd (convert_to_text pdf_bytes w))
    = Pipeline.faiss_index w.
Proof.
  intros pdf_bytes w. unfold Pipeline.convert_to_text.
  destruct (PdfReader pdf_bytes) as [pdf_doc | e].
  - generalize (@nil str). revert w.
    induction (pages pdf_doc) as [| p ps IH]; intros w text; simpl;
      [reflexivity |].
    destruct (extract_text p) as [t | e]; [apply IH |].
    destruct e; try reflexivity.
    unfold Pipeline.bind, Pipeline.print. simpl.
    specialize (IH (Pipeline.World
                      (Pipeline.stdout w ++ ["parsing failed"%string])
                      (Pipeline.faiss_index w)) text).
    simpl in IH.
    destruct (Pipeline.extract_pages _ _ _ _ _ _) as [[a | e] w']; exact IH.
  - destruct e; reflexivity.
Qed.

End ConvertToText.

(** C6 at a document of three pages, the second of which cannot be decoded. *)
Lemma convert_to_text_skips_page_witness :
  Pipeline.convert_to_text _ _ Sample.index Sample.PdfReader Sample.pages
    Sample.extract_text [Byte.x01] Sample.w0
  = (Ok [lit "one"; lit "three"],
     Pipeline.World ["parsing failed"%string] None).
Proof.
  apply (convert_to_text_skips_page _ _ Sample.index Sample.PdfReader
           Sample.pages Sample.extract_text [Byte.x01]
           [Ok (lit "one"); Raise BinasciiError; Ok (lit "three")]
           [Ok (lit "one")] [Ok (lit "three")] (Raise BinasciiError)
           Sample.w0); try reflexivity.
  constructor; [right; eexists; reflexivity |].
  constructor; [right; eexists; reflexivity |].
  constructor.
Defined.

(** C2 at a file on which the reader raises [PdfReadError]. *)
Lemma convert_to_text_unreadable_witness :
  Pipeline.convert_to_text _ _ Sample.index Sample.PdfReader Sample.pages
    Sample.extract_text [Byte.x00] Sample.w0
  = (Raise PdfReadError, Sample.w0).
Proof.
  apply (convert_to_text_unreadable _ _ Sample.index Sample.PdfReader
           Sample.pages Sample.extract_text [Byte.x00] PdfReadError
           Sample.w0).
  reflexivity.
Defined.

(** ** Batching and embedding *)

Section BatchFacts.

Context {A : Type}.

(** The batches are the rows, in order, cut into consecutive groups. *)
Lemma batch_rows_concat (batch_size : nat) (rows : list A) :
  forall room batch,
    concat (Pipeline.batch_rows batch_size room batch rows) = batch ++ rows.
Proof.
  induction rows as [| row rest IH]; intros room batch; simpl.
  - destruct batch; simpl; now rewrite ?app_nil_r.
  - destruct room as [| [| room']]; simpl; rewrite IH; simpl;
      now rewrite <- app_assoc.
Qed.

Lemma batches_concat (batch_size : nat) (rows : list A) :
  concat (Pipeline.batches batch_size rows) = rows.
Proof. apply batch_rows_concat. Qed.


End BatchFacts.

(** 250 rows under [batch_size=100] make three batches of 100, 100 and 50
    rows. *)
Example batches_250 :
  map (@length nat) (Pipeline.batches 100 (seq 0 250)) = [100; 100; 50]%nat.
Proof. vm_compute. reflexivity. Qed.

Section EmbedFacts.

Variables vector index : Type.
Variable encode : list str -> result (list vector).

Local Notation "'Embed_call'" := (Pipeline.Embed_call vector index encode).
Local Notation "'encodes'" := (Pipeline.encodes vector encode).

Lemma zip_fst {X Y} (xs : list X) :
  forall ys : list Y, length ys = length xs -> map fst (zip xs ys) = xs.
Proof.
  induction xs as [| x xs IH]; intros [| y ys] H; simpl in *;
    try discriminate; [reflexivity |].
  f_equal. apply IH. lia.
Qed.

Lemma zip_nth_error {X Y} (xs : list X) :
  forall (ys : list Y) i x y,
    nth_error xs i = Some x -> nth_error ys i = Some y ->
    nth_error (zip xs ys) i = Some (x, y).
Proof.
  induction xs as [| x0 xs IH]; intros [| y0 ys] [| i] x y Hx Hy; simpl in *;
    try discriminate.
  - now inversion Hx; inversion Hy.
  - now apply IH.
Qed.

(** C9: within a batch the pairs come out in the order of the texts, the
    i-th pair being the i-th text with the i-th vector of the encoder's
    answer for this batch. *)
Theorem Embed_call_in_order :
  forall (text_batch : list str) (embeddings : list vector)
         (w : Pipeline.world index),
    encode text_batch = Ok embeddings ->
    length embeddings = length text_batch ->
    exists pairs,
      Embed_call text_batch w = (Ok pairs, w)
      /\ length pairs = length text_batch
      /\ forall i text,
           nth_error text_batch i = Some text ->
           exists v, nth_error embeddings i = Some v
                     /\ nth_error pairs i = Some (text, v).
Proof.
  intros text_batch embeddings w E L.
  exists (zip text_batch embeddings). repeat split.
  - unfold Pipeline.Embed_call, Pipeline.bind, Pipeline.lift. now rewrite E.
  - unfold zip. rewrite length_combine. lia.
  - intros i text Hi.
    destruct (nth_error embeddings i) as [v |] eqn:Hv.
    + exists v. split; [reflexivity |]. now apply zip_nth_error.
    + apply nth_error_None in Hv.
      assert (i < length text_batch)%nat
        by (apply nth_error_Some; congruence).
      lia.
Qed.

Lemma embed_batches_ok (bs : list (list str)) :
  Forall encodes bs ->
  forall w, exists out,
    Pipeline.flat_map index Embed_call bs w = (Ok out, w)
    /\ map fst out = concat bs.
Proof.
  induction 1 as [| b bs [vs [E L]] _ IH]; intros w; simpl.
  - exists []. split; reflexivity.
  - destruct (IH w) as [outs [E' F]].
    exists (zip b vs ++ outs). split.
    + unfold Pipeline.bind at 1. unfold Pipeline.Embed_call at 1.
      unfold Pipeline.bind at 1. unfold Pipeline.lift. rewrite E. simpl.
      unfold Pipeline.bind at 1. rewrite E'. reflexivity.
    + rewrite map_app, F. now rewrite zip_fst.
Qed.

(** When the encoder answers every batch with one vector per text, the
    embedding stage returns one pair per chunk, and the texts of the pairs
    are the chunks. *)
Lemma embed_stage_keeps :
  forall (chunks : list str) (w : Pipeline.world index),
    Forall encodes (Pipeline.batches 100 chunks) ->
    exists out,
      Pipeline.map_batches index Embed_call 100 chunks w = (Ok out, w)
      /\ map fst out = chunks
      /\ length out = length chunks.
Proof.
  intros chunks w H.
  destruct (embed_batches_ok _ H w) as [out [E F]].
  rewrite batches_concat in F.
  exists out. repeat split; [exact E | exact F |].
  apply (f_equal (@length str)) in F. now rewrite length_map in F.
Qed.

Lemma zip_fst_firstn {X Y} (xs : list X) :
  forall ys : list Y, map fst (zip xs ys) = firstn (length ys) xs.
Proof.
  induction xs as [| x xs IH]; intros [| y ys]; simpl; try reflexivity.
  now rewrite IH.
Qed.

Lemma zip_snd_firstn {X Y} (xs : list X) :
  forall ys : list Y, map snd (zip xs ys) = firstn (length xs) ys.
Proof.
  induction xs as [| x xs IH]; intros [| y ys]; simpl; try reflexivity.
  now rewrite IH.
Qed.


(** The first batch on which the encoder raises ends the stage. *)
Lemma embed_batches_raise (bs : list (list str)) :
  (exists b e, In b bs /\ encode b = Raise e) ->
  forall w, exists b e,
    In b bs /\ encode b = Raise e
    /\ Pipeline.flat_map index Embed_call bs w = (Raise e, w).
Proof.
  induction bs as [| b0 bs IH]; intros [b [e [Hin E]]] w; [destruct Hin |].
  simpl. unfold Pipeline.bind at 1. unfold Pipeline.Embed_call at 1.
  unfold Pipeline.bind at 1. unfold Pipeline.lift.
  destruct (encode b0) as [vs |e0] eqn:E0.
  - destruct Hin as [-> | Hin]; [congruence |].
    destruct (IH (ex_intro _ b (ex_intro _ e (conj Hin E))) w)
      as [b' [e' [Hin' [E' F]]]].
    exists b', e'. repeat split; [now right | exact E' |].
    simpl. unfold Pipeline.bind at 1. now rewrite F.
  - exists b0, e0. repeat split; [now left | exact E0].
Qed.

End EmbedFacts.

(** ** The run *)

Section RunFacts.

Variables pdf_document page vector index : Type.
Variable PdfReader : bytes -> result pdf_document.
Variable pages : pdf_document -> list page.
Variable extract_text : page -> result str.
Variable encode : list str -> result (list vector).
Variable from_embeddings : list (str * vector) -> result index.

Local Notation "'convert_to_text'" :=
  (Pipeline.convert_to_text pdf_document page index PdfReader pages
     extract_text).
Local Notation "'chunks_of'" :=
  (Pipeline.chunks_of pdf_document page index PdfReader pages extract_text).
Local Notation "'main'" :=
  (Pipeline.main pdf_document page vector index PdfReader pages extract_text
     encode from_embeddings).

Lemma flat_map_convert_index (documents : list bytes) :
  forall w,
    Pipeline.faiss_index
      (snd (Pipeline.flat_map index convert_to_text documents w))
    = Pipeline.faiss_index w.
Proof.
  induction documents as [| d ds IH]; intros w; simpl; [reflexivity |].
  unfold Pipeline.bind at 1.
  pose proof (convert_to_text_index pdf_document page index PdfReader pages
                extract_text d w) as H.
  destruct (convert_to_text d w) as [[out | e] w1]; simpl in H;
    [| exact H].
  unfold Pipeline.bind at 1. specialize (IH w1).
  destruct (Pipeline.flat_map index convert_to_text ds w1) as [[outs | e] w2];
    simpl in *; congruence.
Qed.

Lemma chunks_of_index (documents : list bytes) (w : Pipeline.world index) :
  Pipeline.faiss_index (snd (chunks_of documents w)) = Pipeline.faiss_index w.
Proof.
  unfold Pipeline.chunks_of, Pipeline.bind.
  pose proof (flat_map_convert_index documents w) as H.
  destruct (Pipeline.flat_map index convert_to_text documents w)
    as [[out | e] w1]; exact H.
Qed.

(** C5: when the encoder raises on a batch, the run ends with the exception
    of the first batch that fails: no pair is returned for the other
    batches, the index builder is not reached and the saved index is what it
    was before the run. *)
Theorem encoding_failure_is_fatal :
  forall (documents : list bytes) (chunks : list str)
         (w w1 : Pipeline.world index) (batch : list str) (e : exn),
    chunks_of documents w = (Ok chunks, w1) ->
    In batch (Pipeline.batches 100 chunks) ->
    encode batch = Raise e ->
    exists batch' e',
      In batch' (Pipeline.batches 100 chunks)
      /\ encode batch' = Raise e'
      /\ Pipeline.map_batches index (Pipeline.Embed_call vector index encode)
           100 chunks w1 = (Raise e', w1)
      /\ main documents w = (Raise e', w1)
      /\ Pipeline.faiss_index w1 = Pipeline.faiss_index w.
Proof.
  intros documents chunks w w1 batch e Hc Hin E.
  destruct (embed_batches_raise vector index encode _
              (ex_intro _ batch (ex_intro _ e (conj Hin E))) w1)
    as [b' [e' [Hin' [E' F]]]].
  exists b', e'. repeat split; [exact Hin' | exact E' | exact F | |].
  - unfold Pipeline.main. unfold Pipeline.bind at 1. rewrite Hc.
    unfold Pipeline.bind at 1. unfold Pipeline.map_batches. now rewrite F.
  - pose proof (chunks_of_index documents w) as H. now rewrite Hc in H.
Qed.

End RunFacts.

(** A run over one readable file: the index is built from the pairs and
    saved, after the two lines are printed. *)
Example main_saves_index :
  Pipeline.main _ _ _ _ Sample.PdfReader Sample.pages Sample.extract_text
    Sample.encode Sample.from_embeddings [[Byte.x02]] Sample.w0
  = (Ok tt,
     Pipeline.World
       ["Creating FAISS Vector Index."%string;
        "Saving FAISS index locally."%string]
       (Some [(lit "some text", [9])])).
Proof. vm_compute. reflexivity. Qed.



(** C9 at a batch of two texts. *)
Lemma Embed_call_in_order_witness :
  exists pairs,
    Pipeline.Embed_call _ Sample.index Sample.encode [lit "a"; lit "bc"]
      Sample.w0 = (Ok pairs, Sample.w0)
    /\ length pairs = 2%nat
    /\ forall i text,
         nth_error [lit "a"; lit "bc"] i = Some text ->
         exists v, nth_error [[1]; [2]] i = Some v
                   /\ nth_error pairs i = Some (text, v).
Proof.
  apply (Embed_call_in_order _ Sample.index Sample.encode
           [lit "a"; lit "bc"] [[1]; [2]] Sample.w0); reflexivity.
Defined.

(** C5 at a file of three pages, whose three chunks are too many for the
    encoder. *)
Lemma encoding_failure_is_fatal_witness :
  exists batch' e',
    In batch' (Pipeline.batches 100 [lit "one"; lit "two"; lit "three"])
    /\ Sample.encode_small batch' = Raise e'
    /\ Pipeline.map_batches Sample.index
         (Pipeline.Embed_call _ _ Sample.encode_small) 100
         [lit "one"; lit "two"; lit "three"] Sample.w0 = (Raise e', Sample.w0)
    /\ Pipeline.main _ _ _ _ Sample.PdfReader Sample.pages Sample.extract_text
         Sample.encode_small Sample.from_embeddings [[Byte.x03]] Sample.w0
       = (Raise e', Sample.w0)
    /\ Pipeline.faiss_index Sample.w0 = Pipeline.faiss_index Sample.w0.
Proof.
  apply (encoding_failure_is_fatal _ _ _ _ Sample.PdfReader Sample.pages
           Sample.extract_text Sample.encode_small Sample.from_embeddings
           [[Byte.x03]] [lit "one"; lit "two"; lit "three"]
           Sample.w0 Sample.w0 [lit "one"; lit "two"; lit "three"]
           RuntimeError).
  - vm_compute. reflexivity.
  - left. reflexivity.
  - reflexivity.
Defined.

(** ** The splitter *)

Section SplitterFacts.

Variables size overlap : nat.
Hypothesis overlap_lt_size : (overlap < size)%nat.

Local Notation "'cut_of' t" :=
  (TextSplitter.choose_cut overlap TextSplitter.separators (firstn size t))
  (at level 10, t at level 9).
Local Notation "'chunks'" := (TextSplitter.chunks size overlap).

Lemma cuts_bound (separator window : str) (p : nat) :
  In p (TextSplitter.cuts separator window overlap) ->
  (overlap < p <= length window)%nat.
Proof.
  unfold TextSplitter.cuts. intros H.
  apply filter_In in H as [H _]. apply in_seq in H. lia.
Qed.

Lemma cuts_ends (separator window : str) (p : nat) :
  In p (TextSplitter.cuts separator window overlap) ->
  endswith separator (firstn p window) = true.
Proof.
  unfold TextSplitter.cuts. intros H. now apply filter_In in H as [_ H].
Qed.

Lemma last_cut_In (separator window : str) (p : nat) :
  TextSplitter.last_cut separator window overlap = Some p ->
  In p (TextSplitter.cuts separator window overlap).
Proof.
  unfold TextSplitter.last_cut.
  destruct (rev (TextSplitter.cuts separator window overlap)) as [| q qs] eqn:E;
    [discriminate |].
  intros H. injection H as ->. apply in_rev. rewrite E. now left.
Qed.

Lemma last_cut_bound (separator window : str) (p : nat) :
  TextSplitter.last_cut separator window overlap = Some p ->
  (overlap < p <= length window)%nat.
Proof. intros H. eapply cuts_bound, last_cut_In, H. Qed.

(** The chunk that starts a window longer than the overlap ends beyond the
    overlap and inside the window. *)
Lemma choose_cut_bound (seps : list str) (window : str) :
  (overlap < length window)%nat ->
  (overlap < TextSplitter.choose_cut overlap seps window <= length window)%nat.
Proof.
  intros H. induction seps as [| separator later IH]; simpl; [lia |].
  destruct separator as [| c cs]; [lia |].
  destruct (TextSplitter.last_cut (c :: cs) window overlap) as [p |] eqn:E.
  - eapply last_cut_bound, E.
  - exact IH.
Qed.

(** A window without whitespace has no boundary to end a chunk on. *)
Lemma last_cut_solid (separator window : str) (c : ascii) :
  In c separator -> isspace c = true -> solid window ->
  TextSplitter.last_cut separator window overlap = None.
Proof.
  intros Hc Hs Hw.
  destruct (TextSplitter.last_cut separator window overlap) as [p |] eqn:E;
    [| reflexivity].
  apply last_cut_In, cuts_ends in E.
  apply (endswith_In _ _ c) in E; [| exact Hc].
  apply firstn_In, Hw in E. congruence.
Qed.

Lemma choose_cut_solid (window : str) :
  solid window ->
  TextSplitter.choose_cut overlap TextSplitter.separators window
  = length window.
Proof.
  intros H. unfold TextSplitter.separators. cbn [TextSplitter.choose_cut].
  rewrite (last_cut_solid [newline; newline] window newline);
    [| now left | reflexivity | exact H].
  rewrite (last_cut_solid [newline] window newline);
    [| now left | reflexivity | exact H].
  rewrite (last_cut_solid [space] window space);
    [| now left | reflexivity | exact H].
  reflexivity.
Qed.

Lemma cut_of_bound (text : str) :
  (size < length text)%nat ->
  (overlap < cut_of text <= size)%nat.
Proof.
  intros H.
  assert (L : length (firstn size text) = size)
    by (rewrite length_firstn; lia).
  pose proof (choose_cut_bound TextSplitter.separators (firstn size text)) as B.
  rewrite L in B. apply B. lia.
Qed.

Lemma rest_length (text : str) :
  (size < length text)%nat ->
  (overlap < length (skipn (cut_of text - overlap) text) < length text)%nat.
Proof.
  intros H. pose proof (cut_of_bound text H) as B.
  rewrite length_skipn. lia.
Qed.

(** The fuel that [chunks] gives is enough: more of it changes nothing. *)
Lemma split_from_fuel (fuel : nat) :
  forall (fuel' : nat) (text : str),
    (length text <= fuel)%nat -> (length text <= fuel')%nat ->
    TextSplitter.split_from size overlap fuel text
    = TextSplitter.split_from size overlap fuel' text.
Proof.
  induction fuel as [| fuel IH]; intros fuel' text H H'.
  - destruct text; [| simpl in H; lia]. now destruct fuel'.
  - destruct fuel' as [| fuel'].
    + destruct text; [reflexivity | simpl in H'; lia].
    + destruct text as [| c cs]; [reflexivity |].
      cbn [TextSplitter.split_from].
      destruct (length (c :: cs) <=? size)%nat eqn:E; [reflexivity |].
      apply Nat.leb_gt in E. f_equal.
      pose proof (rest_length (c :: cs) E) as R.
      apply IH; lia.
Qed.

Lemma chunks_short (text : str) :
  text <> [] -> (length text <= size)%nat -> chunks text = [text].
Proof.
  intros Hn H. unfold TextSplitter.chunks.
  destruct text as [| c cs]; [congruence |].
  cbn [length TextSplitter.split_from].
  apply Nat.leb_le in H. cbn [length] in H. now rewrite H.
Qed.

Lemma chunks_long (text : str) :
  (size < length text)%nat ->
  chunks text
  = firstn (cut_of text) text :: chunks (skipn (cut_of text - overlap) text).
Proof.
  intros H. unfold TextSplitter.chunks.
  destruct text as [| c cs]; [simpl in H; lia |].
  pose proof (rest_length (c :: cs) H) as R.
  change (length (c :: cs)) with (S (length cs)) at 1.
  cbn [TextSplitter.split_from].
  apply Nat.leb_gt in H. rewrite H. f_equal.
  apply split_from_fuel; cbn [length] in *; lia.
Qed.

(** Reasoning along the chunks of a text. *)
Lemma chunks_ind (P : str -> Prop) :
  P [] ->
  (forall text, text <> [] -> (length text <= size)%nat -> P text) ->
  (forall text,
      (size < length text)%nat ->
      P (skipn (cut_of text - overlap) text) -> P text) ->
  forall text, P text.
Proof.
  intros Hnil Hshort Hlong text.
  remember (length text) as n eqn:En. revert text En.
  induction n as [n IH] using lt_wf_ind. intros text En.
  destruct (Nat.leb_spec (length text) size) as [H | H].
  - destruct text as [| c cs]; [exact Hnil |].
    apply Hshort; [discriminate | exact H].
  - apply Hlong; [exact H |].
    pose proof (rest_length text H) as R.
    eapply IH; [| reflexivity]. lia.
Qed.

Lemma chunks_bounded (text : str) :
  Forall (fun chunk => (length chunk <= size)%nat) (chunks text).
Proof.
  induction text as [| text Hn H | text H IH] using chunks_ind.
  - constructor.
  - rewrite chunks_short by assumption. now repeat constructor.
  - rewrite chunks_long by assumption. constructor; [| exact IH].
    pose proof (cut_of_bound text H) as B. rewrite length_firstn. lia.
Qed.

Lemma chunks_empty_iff (text : str) : chunks text = [] <-> text = [].
Proof.
  split.
  - intros E. destruct text as [| c cs]; [reflexivity |].
    destruct (Nat.leb_spec (length (c :: cs)) size) as [H | H].
    + rewrite chunks_short in E by (assumption || discriminate).
      discriminate E.
    + rewrite chunks_long in E by assumption. discriminate E.
  - intros ->. reflexivity.
Qed.

(** The first chunk of a text longer than the overlap starts with the first
    [overlap] characters of the text. *)
Lemma chunks_head (text : str) :
  (overlap < length text)%nat ->
  exists chunk rest,
    chunks text = chunk :: rest
    /\ (overlap <= length chunk)%nat
    /\ firstn overlap chunk = firstn overlap text.
Proof.
  intros H. destruct (Nat.leb_spec (length text) size) as [K | K].
  - exists text, []. rewrite chunks_short; [| | exact K].
    + repeat split. lia.
    + intros ->. simpl in H. lia.
  - pose proof (cut_of_bound text K) as B.
    eexists _, _. split; [apply chunks_long, K |]. split.
    + rewrite length_firstn. lia.
    + rewrite firstn_firstn. f_equal. lia.
Qed.

(** Every chunk after the first starts with the last [overlap] characters of
    the chunk before it. *)
Lemma chunks_adjacent (text : str) :
  TextSplitter.adjacent (TextSplitter.overlap_by overlap) (chunks text).
Proof.
  induction text as [| text Hn H | text H IH] using chunks_ind.
  - exact I.
  - rewrite chunks_short by assumption. exact I.
  - rewrite chunks_long by assumption.
    pose proof (cut_of_bound text H) as B.
    pose proof (rest_length text H) as R.
    destruct (chunks_head (skipn (cut_of text - overlap) text))
      as [chunk [rest [E [L F]]]]; [lia |].
    rewrite E in IH |- *. cbn [TextSplitter.adjacent]. split; [| exact IH].
    unfold TextSplitter.overlap_by. rewrite length_firstn.
    replace (Nat.min (cut_of text) (length text)) with (cut_of text) by lia.
    split; [lia |]. split; [exact L |].
    rewrite F. rewrite firstn_skipn_comm. f_equal. f_equal. lia.
Qed.

Lemma chunks_tails (text : str) :
  concat (map (skipn overlap) (chunks text)) = skipn overlap text.
Proof.
  induction text as [| text Hn H | text H IH] using chunks_ind.
  - now rewrite skipn_nil.
  - rewrite chunks_short by assumption. simpl. apply app_nil_r.
  - rewrite chunks_long by assumption.
    pose proof (cut_of_bound text H) as B.
    cbn [map concat]. rewrite IH, skipn_skipn.
    replace (overlap + (cut_of text - overlap))%nat with (cut_of text) by lia.
    apply skipn_firstn_rest; lia.
Qed.

(** The chunks, each after the first without its first [overlap] characters,
    are the text. *)
Lemma chunks_rebuild (text : str) :
  TextSplitter.rebuild overlap (chunks text) = text.
Proof.
  destruct (Nat.leb_spec (length text) size) as [K | K].
  - destruct text as [| c cs]; [reflexivity |].
    rewrite chunks_short by (assumption || discriminate).
    simpl. now rewrite app_nil_r.
  - rewrite chunks_long by assumption.
    pose proof (cut_of_bound text K) as B.
    cbn [TextSplitter.rebuild]. rewrite chunks_tails, skipn_skipn.
    replace (overlap + (cut_of text - overlap))%nat with (cut_of text) by lia.
    apply firstn_skipn.
Qed.

(** The hard cut: a text without whitespace is cut after [size] characters,
    and goes on [overlap] characters before. *)
Lemma chunks_solid (text : str) :
  solid text -> (size < length text)%nat ->
  chunks text = firstn size text :: chunks (skipn (size - overlap) text).
Proof.
  intros Hs H. rewrite chunks_long by assumption.
  rewrite choose_cut_solid by now apply solid_firstn.
  rewrite length_firstn.
  replace (Nat.min size (length text)) with size by lia.
  reflexivity.
Qed.

(** The chunks of a text without whitespace have none. *)
Lemma chunks_solid_all (text : str) :
  solid text -> Forall solid (chunks text).
Proof.
  induction text as [| text Hn H | text H IH] using chunks_ind; intros Hs.
  - constructor.
  - rewrite chunks_short by assumption. now repeat constructor.
  - rewrite chunks_long by assumption.
    constructor; [now apply solid_firstn | apply IH; now apply solid_skipn].
Qed.

End SplitterFacts.

(** A text of seven words under chunks of 10 characters that share 3: every
    chunk but the last ends with a word. *)
Example chunks_at_words :
  TextSplitter.chunks 10 3 (lit "aaa bbb ccc ddd eee fff ggg")
  = [lit "aaa bbb "; lit "bb ccc "; lit "cc ddd "; lit "dd eee ";
     lit "ee fff ggg"].
Proof. vm_compute. reflexivity. Qed.

(** The end of a paragraph is preferred to the end of a word that comes
    after it. *)
Example chunks_at_paragraph :
  TextSplitter.chunks 10 3
    (lit "abcd" ++ [newline; newline] ++ lit "ef gh ij")
  = [lit "abcd" ++ [newline; newline];
     lit "d" ++ [newline; newline] ++ lit "ef gh ";
     lit "gh ij"].
Proof. vm_compute. reflexivity. Qed.

(** A text without white space is cut after every 10 - 3 characters. *)
Example chunks_hard_cut :
  TextSplitter.chunks 10 3 (lit "abcdefghijklmnopqrstuvwxyz")
  = [lit "abcdefghij"; lit "hijklmnopq"; lit "opqrstuvwx"; lit "vwxyz"].
Proof. vm_compute. reflexivity. Qed.

(** ** The chunks of [split_text] *)

(** C7: whatever the splitter returns, no chunk of [split_text] contains a
    newline: a chunk is the splitter's chunk, character by character, with a
    space in the place of every newline. *)
Theorem split_text_no_newline :
  forall (text_splitter : str -> list str) (page_text : str),
    Forall2
      (fun chunk piece =>
         ~ In newline chunk
         /\ length chunk = length piece
         /\ forall i, nth i chunk space
                      = if Ascii.eqb (nth i piece space) newline
                        then space
                        else nth i piece space)
      (Pipeline.split_text_with text_splitter page_text)
      (text_splitter page_text).
Proof.
  intros text_splitter page_text. unfold Pipeline.split_text_with.
  induction (text_splitter page_text) as [| piece pieces IH]; simpl;
    constructor; [| exact IH].
  repeat split.
  - apply replace_removes. discriminate.
  - apply replace_length.
  - intros i. unfold replace.
    exact (map_nth (fun c => if Ascii.eqb c newline then space else c)
             piece space i).
Qed.

(** [split_text] over the splitter with the sizes of line 47 to 50. *)
Lemma split_text_unfold (page_text : str) :
  Pipeline.split_text page_text
  = map (replace newline space) (TextSplitter.chunks 1000 100 page_text).
Proof. reflexivity. Qed.

Lemma split_text_empty : Pipeline.split_text [] = [].
Proof. reflexivity. Qed.

Lemma chunks_short_1000 (t : str) :
  t <> [] -> (length t <= 1000)%nat -> TextSplitter.chunks 1000 100 t = [t].
Proof. apply chunks_short. Qed.

Lemma chunks_solid_1000 (t : str) :
  solid t -> (1000 < length t)%nat ->
  TextSplitter.chunks 1000 100 t
  = firstn 1000 t :: TextSplitter.chunks 1000 100 (skipn 900 t).
Proof. intros Hs H. apply (chunks_solid 1000 100); (assumption || lia). Qed.

(** Replacing the newlines changes nothing in a text that has none. *)
Lemma split_text_solid_chunks (page_text : str) :
  solid page_text ->
  Pipeline.split_text page_text = TextSplitter.chunks 1000 100 page_text.
Proof.
  intros Hs. rewrite split_text_unfold.
  pose proof (chunks_solid_all 1000 100 ltac:(lia) page_text Hs) as H.
  induction H as [| chunk chunks Hc _ IH]; [reflexivity |].
  simpl. rewrite IH. f_equal.
  apply replace_absent. now apply solid_no_newline.
Qed.

Lemma overlap_by_replace (n : nat) (x y : str) :
  TextSplitter.overlap_by n x y ->
  TextSplitter.overlap_by n (replace newline space x)
    (replace newline space y).
Proof.
  unfold TextSplitter.overlap_by. rewrite !replace_length.
  intros [Hx [Hy E]]. split; [exact Hx |]. split; [exact Hy |].
  rewrite <- replace_skipn, <- replace_firstn. now rewrite E.
Qed.

Lemma adjacent_map {A B} (R : A -> A -> Prop) (R' : B -> B -> Prop)
    (f : A -> B) :
  (forall x y, R x y -> R' (f x) (f y)) ->
  forall l, TextSplitter.adjacent R l -> TextSplitter.adjacent R' (map f l).
Proof.
  intros H. induction l as [| x l IH]; [trivial |].
  destruct l as [| y l]; [trivial |].
  intros [Hxy Hl]. split; [now apply H | now apply IH].
Qed.

Lemma replace_concat (old new : ascii) (l : list str) :
  replace old new (concat l) = concat (map (replace old new) l).
Proof. apply concat_map. Qed.

Lemma rebuild_replace (n : nat) (l : list str) :
  TextSplitter.rebuild n (map (replace newline space) l)
  = replace newline space (TextSplitter.rebuild n l).
Proof.
  destruct l as [| x l]; [reflexivity |].
  cbn [map TextSplitter.rebuild].
  rewrite replace_app, replace_concat, !map_map. f_equal. f_equal.
  apply map_ext. intros chunk. symmetry. apply replace_skipn.
Qed.

(** C3: for every page text, every chunk of [split_text] has at most
    [chunk_size] = 1000 characters, and every chunk after the first shares
    [chunk_overlap] = 100 characters with the chunk before it: both have 100
    characters at least, and the last 100 characters of the one are the
    first 100 characters of the other.  The splitter is the one that section
    4.2 of the specification describes. *)
Theorem split_text_chunks :
  forall page_text : str,
    Forall (fun chunk => (length chunk <= 1000)%nat)
           (Pipeline.split_text page_text)
    /\ TextSplitter.adjacent (TextSplitter.overlap_by 100)
         (Pipeline.split_text page_text).
Proof.
  intros page_text. rewrite split_text_unfold. split.
  - apply Forall_map.
    eapply Forall_impl; [| apply (chunks_bounded 1000 100); lia].
    intros chunk H. now rewrite replace_length.
  - apply (adjacent_map (TextSplitter.overlap_by 100)).
    + apply overlap_by_replace.
    + apply chunks_adjacent. lia.
Qed.

(** C8: [split_text] returns for every page text, and it returns no chunk
    exactly when the page text is empty: a page text that is not empty gives
    one chunk at least.  The splitter is the one that section 4.2 of the
    specification describes. *)
Theorem split_text_empty_iff :
  forall page_text : str,
    Pipeline.split_text page_text = [] <-> page_text = [].
Proof.
  intros page_text. rewrite split_text_unfold. split.
  - intros E. apply map_eq_nil in E.
    apply (chunks_empty_iff 1000 100 ltac:(lia)) in E. exact E.
  - intros ->. reflexivity.
Qed.

(** A page text of 1500 characters without white space is cut into its
    first 1000 characters and its characters from 900 on. *)
Lemma split_text_1500 (t : str) :
  length t = 1500%nat -> solid t ->
  Pipeline.split_text t = [firstn 1000 t; skipn 900 t].
Proof.
  intros L Hs. rewrite (split_text_solid_chunks t Hs).
  rewrite chunks_solid_1000 by (assumption || lia).
  rewrite chunks_short_1000; [reflexivity | |].
  - intros E. apply (f_equal (@length ascii)) in E.
    rewrite length_skipn in E. simpl in E. lia.
  - rewrite length_skipn. lia.
Qed.

(** ** From pages to chunks *)

Section PagesToChunks.

Variables pdf_document page vector index : Type.
Variable PdfReader : bytes -> result pdf_document.
Variable pages : pdf_document -> list page.
Variable extract_text : page -> result str.
Variable encode : list str -> result (list vector).

Local Notation "'convert_to_text'" :=
  (Pipeline.convert_to_text pdf_document page index PdfReader pages
     extract_text).
Local Notation "'chunks_of'" :=
  (Pipeline.chunks_of pdf_document page index PdfReader pages extract_text).
Local Notation "'Embed_call'" := (Pipeline.Embed_call vector index encode).

(** The chunks of one file whose pages are all extracted. *)
Lemma chunks_of_one_file (pdf_bytes : bytes) (pdf_doc : pdf_document)
    (texts : list str) (w : Pipeline.world index) :
  PdfReader pdf_bytes = Ok pdf_doc ->
  Forall2 (fun p t => extract_text p = Ok t) (pages pdf_doc) texts ->
  chunks_of [pdf_bytes] w
  = (Ok (List.flat_map Pipeline.split_text texts), w).
Proof.
  intros E H. unfold Pipeline.chunks_of. simpl.
  unfold Pipeline.bind at 1. unfold Pipeline.bind at 1.
  rewrite (convert_to_text_keeps_page _ _ index PdfReader pages extract_text
             pdf_bytes pdf_doc texts w E H).
  unfold Pipeline.bind, Pipeline.ret. simpl. now rewrite app_nil_r.
Qed.

(** C10: every page that is extracted gives one entry of [convert_to_text],
    a blank page the empty text; the empty text gives no chunk, so that the
    chunks are those of the pages before and after the blank page. *)
Theorem blank_page_kept_without_chunks :
  forall (pdf_bytes : bytes) (pdf_doc : pdf_document) (texts : list str)
         (w : Pipeline.world index),
    PdfReader pdf_bytes = Ok pdf_doc ->
    Forall2 (fun p t => extract_text p = Ok t) (pages pdf_doc) texts ->
    convert_to_text pdf_bytes w = (Ok texts, w)
    /\ length texts = length (pages pdf_doc)
    /\ Pipeline.split_text [] = []
    /\ forall before after,
         texts = before ++ [] :: after ->
         List.flat_map Pipeline.split_text texts
         = List.flat_map Pipeline.split_text before
           ++ List.flat_map Pipeline.split_text after.
Proof.
  intros pdf_bytes pdf_doc texts w E H.
  split; [| split; [| split]].
  - now apply (convert_to_text_keeps_page _ _ index PdfReader pages
                 extract_text pdf_bytes pdf_doc).
  - symmetry. eapply Forall2_length. exact H.
  - exact split_text_empty.
  - intros before after ->. rewrite flat_map_app.
    cbn [List.flat_map]. now rewrite split_text_empty.
Qed.

(** C4, as amended: pages are split one by one.  When the 1500 characters of
    a file of two pages have no white space and all lie on one page, the
    other page being blank, the chunks are the first 1000 characters and the
    characters from 900 on; and an encoder that answers these two chunks
    with two vectors gives two pairs. *)
Theorem one_page_text_two_chunks :
  forall (pdf_bytes : bytes) (pdf_doc : pdf_document) (p1 p2 : page)
         (t1 t2 : str) (w : Pipeline.world index),
    PdfReader pdf_bytes = Ok pdf_doc ->
    pages pdf_doc = [p1; p2] ->
    extract_text p1 = Ok t1 -> extract_text p2 = Ok t2 ->
    t1 = [] \/ t2 = [] ->
    length (t1 ++ t2) = 1500%nat -> solid (t1 ++ t2) ->
    Pipeline.encodes vector encode
      [firstn 1000 (t1 ++ t2); skipn 900 (t1 ++ t2)] ->
    chunks_of [pdf_bytes] w
    = (Ok [firstn 1000 (t1 ++ t2); skipn 900 (t1 ++ t2)], w)
    /\ exists out,
         Pipeline.map_batches index Embed_call 100
           [firstn 1000 (t1 ++ t2); skipn 900 (t1 ++ t2)] w = (Ok out, w)
         /\ map fst out = [firstn 1000 (t1 ++ t2); skipn 900 (t1 ++ t2)]
         /\ length out = 2%nat.
Proof.
  intros pdf_bytes pdf_doc p1 p2 t1 t2 w E Hp E1 E2 Hblank L Hs Henc.
  split.
  - rewrite (chunks_of_one_file pdf_bytes pdf_doc [t1; t2] w E)
      by (rewrite Hp; repeat constructor; assumption).
    cbn [List.flat_map]. rewrite app_nil_r.
    destruct Hblank as [-> | ->].
    + rewrite split_text_empty. cbn [app] in *.
      now rewrite (split_text_1500 t2 L Hs).
    + rewrite split_text_empty. rewrite !app_nil_r in *.
      now rewrite (split_text_1500 t1 L Hs).
  - apply (embed_stage_keeps vector index encode).
    constructor; [exact Henc | constructor].
Qed.

End PagesToChunks.

(** C10 at a file with a blank page and a page of text. *)
Lemma blank_page_kept_without_chunks_witness :
  Pipeline.convert_to_text _ _ Sample.index Sample.PdfReader Sample.pages
    Sample.extract_text [Byte.x02] Sample.w0
  = (Ok [[]; lit "some text"], Sample.w0).
Proof.
  apply (blank_page_kept_without_chunks _ _ Sample.index Sample.PdfReader
           Sample.pages Sample.extract_text [Byte.x02]
           [Ok []; Ok (lit "some text")] [[]; lit "some text"] Sample.w0).
  - reflexivity.
  - repeat constructor.
Defined.

Lemma page_c_solid : solid Sample.page_c.
Proof. intros c Hc. apply repeat_spec in Hc. subst c. reflexivity. Qed.

(** C4 at a file whose first page has 1500 characters and whose second page
    is blank. *)
Lemma one_page_text_two_chunks_witness :
  Pipeline.chunks_of _ _ Sample.index Sample.PdfReader Sample.pages
    Sample.extract_text [[Byte.x05]] Sample.w0
  = (Ok [firstn 1000 (Sample.page_c ++ []); skipn 900 (Sample.page_c ++ [])],
     Sample.w0).
Proof.
  apply (one_page_text_two_chunks _ _ Sample.vector Sample.index
           Sample.PdfReader Sample.pages Sample.extract_text Sample.encode
           [Byte.x05] [Ok Sample.page_c; Ok []] (Ok Sample.page_c) (Ok [])
           Sample.page_c [] Sample.w0); try reflexivity.
  - now right.
  - rewrite app_nil_r. exact page_c_solid.
  - eexists. split; reflexivity.
Defined.

(** C4 as stated fails: 1500 characters without white space on two pages of
    1200 and 300 characters give three chunks, of 1000, 300 and 300
    characters. *)
Lemma two_pages_three_chunks :
  length (Sample.page_a ++ Sample.page_b) = 1500%nat
  /\ solid (Sample.page_a ++ Sample.page_b)
  /\ Pipeline.chunks_of _ _ Sample.index Sample.PdfReader Sample.pages
       Sample.extract_text [[Byte.x04]] Sample.w0
     = (Ok [repeat "a"%char 1000; repeat "a"%char 300; repeat "b"%char 300],
        Sample.w0).
Proof.
  split; [reflexivity |]. split.
  - intros c Hc. apply in_app_or in Hc as [Hc | Hc];
      apply repeat_spec in Hc; subst c; reflexivity.
  - vm_compute. reflexivity.
Qed.
(** * Further properties of the script *)

(** ** Files that are refused, files that fail *)

Section DatasetFacts.

Variables pdf_document page vector index : Type.
Variable PdfReader : bytes -> result pdf_document.
Variable pages : pdf_document -> list page.
Variable extract_text : page -> result str.
Variable encode : list str -> result (list vector).
Variable from_embeddings : list (str * vector) -> result index.

Local Notation "'extract_pages'" :=
  (Pipeline.extract_pages page index extract_text).
Local Notation "'convert_to_text'" :=
  (Pipeline.convert_to_text pdf_document page index PdfReader pages
     extract_text).
Local Notation "'extracted'" := (Pipeline.extracted page extract_text).
Local Notation "'skipped'" := (Pipeline.skipped page extract_text).
Local Notation "'page_ok_or_skipped'" :=
  (Pipeline.page_ok_or_skipped page extract_text).
Local Notation "'after_pages'" :=
  (Pipeline.after_pages page index extract_text).
Local Notation "'chunks_of'" :=
  (Pipeline.chunks_of pdf_document page index PdfReader pages extract_text).
Local Notation "'Embed_call'" := (Pipeline.Embed_call vector index encode).
Local Notation "'main'" :=
  (Pipeline.main pdf_document page vector index PdfReader pages extract_text
     encode from_embeddings).

(** [flat_map] over two lists of rows, one after the other. *)
Lemma flat_map_rows_app {A B} (fn : A -> Pipeline.M index (list B))
    (rows1 rows2 : list A) :
  forall w,
    Pipeline.flat_map index fn (rows1 ++ rows2) w
    = match Pipeline.flat_map index fn rows1 w with
      | (Ok out1, w1) =>
          match Pipeline.flat_map index fn rows2 w1 with
          | (Ok out2, w2) => (Ok (out1 ++ out2), w2)
          | (Raise e, w2) => (Raise e, w2)
          end
      | (Raise e, w1) => (Raise e, w1)
      end.
Proof.
  induction rows1 as [| row rows1 IH]; intros w; simpl.
  - unfold Pipeline.ret.
    destruct (Pipeline.flat_map index fn rows2 w) as [[out2 | e] w2];
      reflexivity.
  - unfold Pipeline.bind, Pipeline.ret.
    destruct (fn row w) as [[out | e] w0]; [| reflexivity].
    rewrite IH.
    destruct (Pipeline.flat_map index fn rows1 w0) as [[out1 | e] w1];
      [| reflexivity].
    destruct (Pipeline.flat_map index fn rows2 w1) as [[out2 | e] w2];
      [| reflexivity].
    now rewrite app_assoc.
Qed.

(** X1: a file that the reader refuses with [PdfStreamError] leaves no
    trace: the page texts, the chunks and the whole run over the files are
    those of the files without it. *)
Theorem refused_file_is_dropped :
  forall (before after : list bytes) (bad : bytes) (w : Pipeline.world index),
    PdfReader bad = Raise PdfStreamError ->
    Pipeline.flat_map index convert_to_text (before ++ bad :: after) w
    = Pipeline.flat_map index convert_to_text (before ++ after) w
    /\ chunks_of (before ++ bad :: after) w = chunks_of (before ++ after) w
    /\ main (before ++ bad :: after) w = main (before ++ after) w.
Proof.
  intros before after bad w E.
  assert (F : forall w0,
             Pipeline.flat_map index convert_to_text (before ++ bad :: after) w0
             = Pipeline.flat_map index convert_to_text (before ++ after) w0).
  { intros w0. rewrite !flat_map_rows_app.
    destruct (Pipeline.flat_map index convert_to_text before w0)
      as [[out1 | e] w1]; [| reflexivity].
    replace (Pipeline.flat_map index convert_to_text (bad :: after) w1)
      with (Pipeline.flat_map index convert_to_text after w1); [reflexivity |].
    assert (R : convert_to_text bad w1 = (Ok [], w1))
      by (unfold Pipeline.convert_to_text; now rewrite E).
    cbn [Pipeline.flat_map]. unfold Pipeline.bind, Pipeline.ret. rewrite R.
    destruct (Pipeline.flat_map index convert_to_text after w1)
      as [[out2 | e] w2]; reflexivity. }
  assert (G : chunks_of (before ++ bad :: after) w
              = chunks_of (before ++ after) w).
  { unfold Pipeline.chunks_of, Pipeline.bind. now rewrite F. }
  repeat split; [apply F | exact G |].
  unfold Pipeline.main. unfold Pipeline.bind at 1 6. now rewrite G.
Qed.

(** The page loop over pages that are extracted or skipped, followed by
    other pages. *)
Lemma extract_pages_app (ps : list page) :
  Forall page_ok_or_skipped ps ->
  forall rest text w,
    extract_pages (ps ++ rest) text w
    = extract_pages rest (text ++ extracted ps) (after_pages ps w).
Proof.
  unfold Pipeline.after_pages.
  induction 1 as [| p ps Hp _ IH]; intros rest text w; simpl.
  - rewrite !app_nil_r. now destruct w.
  - destruct Hp as [Hp | [t Hp]]; rewrite Hp; simpl.
    + unfold Pipeline.bind, Pipeline.print; simpl.
      rewrite IH. simpl. now rewrite <- app_assoc.
    + rewrite IH. simpl. now rewrite <- app_assoc.
Qed.

(** X2: a page whose extraction raises another exception than
    [binascii.Error] ends [convert_to_text] with that exception: the texts
    of the pages before it are lost, the pages after it are not read, and
    what was printed for the pages skipped before it stays. *)
Theorem page_failure_leaves_convert_to_text :
  forall (pdf_bytes : bytes) (pdf_doc : pdf_document)
         (before after : list page) (bad : page) (e : exn)
         (w : Pipeline.world index),
    PdfReader pdf_bytes = Ok pdf_doc ->
    pages pdf_doc = before ++ bad :: after ->
    Forall page_ok_or_skipped before ->
    extract_text bad = Raise e -> e <> BinasciiError ->
    convert_to_text pdf_bytes w = (Raise e, after_pages before w).
Proof.
  intros pdf_bytes pdf_doc before after bad e w E Hp Hb Hbad Hne.
  unfold Pipeline.convert_to_text. rewrite E, Hp.
  rewrite (extract_pages_app before Hb). simpl. rewrite Hbad.
  destruct e; try reflexivity. congruence.
Qed.

Lemma extracted_skipped_length (ps : list page) :
  Forall page_ok_or_skipped ps ->
  (length (extracted ps) + length (skipped ps) = length ps)%nat.
Proof.
  induction 1 as [| p ps Hp _ IH]; [reflexivity |].
  unfold Pipeline.extracted, Pipeline.skipped in *. simpl.
  destruct Hp as [Hp | [t Hp]]; rewrite Hp; simpl; lia.
Qed.

(** X3: over a container that the reader opens, every page is accounted
    for: the entries returned and the lines printed are together as many as
    the pages, and the saved index is not touched. *)
Theorem every_page_returned_or_reported :
  forall (pdf_bytes : bytes) (pdf_doc : pdf_document)
         (w : Pipeline.world index),
    PdfReader pdf_bytes = Ok pdf_doc ->
    Forall page_ok_or_skipped (pages pdf_doc) ->
    exists texts printed,
      convert_to_text pdf_bytes w
      = (Ok texts,
         Pipeline.World (Pipeline.stdout w ++ printed)
                        (Pipeline.faiss_index w))
      /\ Forall (eq "parsing failed"%string) printed
      /\ (length texts + length printed = length (pages pdf_doc))%nat.
Proof.
  intros pdf_bytes pdf_doc w E H.
  exists (extracted (pages pdf_doc)),
         (map (fun _ => "parsing failed"%string) (skipped (pages pdf_doc))).
  repeat split.
  - unfold Pipeline.convert_to_text. rewrite E.
    now rewrite (extract_pages_total page index extract_text _ H).
  - apply Forall_forall. intros line Hl.
    apply in_map_iff in Hl as [p [<- _]]. reflexivity.
  - rewrite length_map. now apply extracted_skipped_length.
Qed.

(** What [convert_to_text] does to the state: it prints the line of the
    pages it skips, and nothing else. *)
Lemma extract_pages_prints (ps : list page) :
  forall text w,
  exists printed,
    snd (extract_pages ps text w)
    = Pipeline.World (Pipeline.stdout w ++ printed) (Pipeline.faiss_index w)
    /\ Forall (eq "parsing failed"%string) printed.
Proof.
  induction ps as [| p ps IH]; intros text w.
  - exists []. simpl. rewrite app_nil_r. now destruct w.
  - cbn [Pipeline.extract_pages].
    destruct (extract_text p) as [t | e].
    + apply IH.
    + destruct e;
        try (exists []; simpl; rewrite app_nil_r; now destruct w).
      unfold Pipeline.bind, Pipeline.print.
      destruct (IH text
                  (Pipeline.World (Pipeline.stdout w ++ ["parsing failed"%string])
                     (Pipeline.faiss_index w))) as [printed [E F]].
      exists ("parsing failed"%string :: printed). split.
      * rewrite E. simpl. now rewrite <- app_assoc.
      * now constructor.
Qed.

Lemma convert_to_text_prints (pdf_bytes : bytes) (w : Pipeline.world index) :
  exists printed,
    snd (convert_to_text pdf_bytes w)
    = Pipeline.World (Pipeline.stdout w ++ printed) (Pipeline.faiss_index w)
    /\ Forall (eq "parsing failed"%string) printed.
Proof.
  unfold Pipeline.convert_to_text.
  destruct (PdfReader pdf_bytes) as [pdf_doc | e].
  - apply extract_pages_prints.
  - exists []. split; [| constructor].
    rewrite app_nil_r. destruct e, w; reflexivity.
Qed.

Lemma flat_map_convert_prints (documents : list bytes) :
  forall w,
  exists printed,
    snd (Pipeline.flat_map index convert_to_text documents w)
    = Pipeline.World (Pipeline.stdout w ++ printed) (Pipeline.faiss_index w)
    /\ Forall (eq "parsing failed"%string) printed.
Proof.
  induction documents as [| d ds IH]; intros w.
  - exists []. simpl. rewrite app_nil_r. now destruct w.
  - cbn [Pipeline.flat_map]. unfold Pipeline.bind, Pipeline.ret.
    destruct (convert_to_text_prints d w) as [printed1 [E1 F1]].
    destruct (convert_to_text d w) as [[out | e] w1]; simpl in E1; subst w1.
    + destruct (IH (Pipeline.World (Pipeline.stdout w ++ printed1)
                      (Pipeline.faiss_index w))) as [printed2 [E2 F2]].
      exists (printed1 ++ printed2). split; [| now apply Forall_app].
      destruct (Pipeline.flat_map index convert_to_text ds _)
        as [[outs | e] w2]; simpl in E2 |- *; subst w2;
        now rewrite <- app_assoc.
    + now exists printed1.
Qed.

(** A file for which [convert_to_text] raises makes the stage raise, for
    that file or for another one. *)
Lemma flat_map_convert_raises (documents : list bytes) (bad : bytes) :
  In bad documents ->
  (forall w, exists e w', convert_to_text bad w = (Raise e, w')) ->
  forall w,
  exists e w',
    Pipeline.flat_map index convert_to_text documents w = (Raise e, w')
    /\ exists pdf_bytes w0 w1,
         In pdf_bytes documents
         /\ convert_to_text pdf_bytes w0 = (Raise e, w1).
Proof.
  intros Hin Hbad. induction documents as [| d ds IH]; intros w;
    [destruct Hin |].
  cbn [Pipeline.flat_map]. unfold Pipeline.bind, Pipeline.ret.
  destruct (convert_to_text d w) as [[out | e] w1] eqn:E.
  - destruct Hin as [-> | Hin].
    + destruct (Hbad w) as [e [w' E']]. congruence.
    + destruct (IH Hin w1) as [e [w' [F [pdf_bytes [w0 [w2 [I C]]]]]]].
      exists e, w'. rewrite F. split; [reflexivity |].
      exists pdf_bytes, w0, w2. split; [now right | exact C].
  - exists e, w1. split; [reflexivity |].
    exists d, w, w1. split; [now left | exact E].
Qed.

(** X4: when the reader raises, for one of the files, an exception of
    another class than [PdfStreamError], the run ends with an exception that
    [convert_to_text] raises for one of the files, wherever the file stands
    among the others: only lines of skipped pages are printed, and the saved
    index is as it was. *)
Theorem file_failure_ends_run :
  forall (documents : list bytes) (bad : bytes) (e : exn)
         (w : Pipeline.world index),
    In bad documents ->
    PdfReader bad = Raise e -> e <> PdfStreamError ->
    exists e' printed,
      main documents w
      = (Raise e',
         Pipeline.World (Pipeline.stdout w ++ printed)
                        (Pipeline.faiss_index w))
      /\ Forall (eq "parsing failed"%string) printed
      /\ exists pdf_bytes w0 w1,
           In pdf_bytes documents
           /\ convert_to_text pdf_bytes w0 = (Raise e', w1).
Proof.
  intros documents bad e w Hin E Hne.
  assert (Hbad : forall w0, exists e0 w',
               convert_to_text bad w0 = (Raise e0, w')).
  { intros w0. exists e, w0. unfold Pipeline.convert_to_text. rewrite E.
    destruct e; try reflexivity. congruence. }
  destruct (flat_map_convert_raises documents bad Hin Hbad w)
    as [e' [w' [F C]]].
  destruct (flat_map_convert_prints documents w) as [printed [P Q]].
  rewrite F in P. simpl in P. subst w'.
  exists e', printed. split; [| split; [exact Q | exact C]].
  unfold Pipeline.main, Pipeline.chunks_of.
  unfold Pipeline.bind at 1. unfold Pipeline.bind at 1. now rewrite F.
Qed.

End DatasetFacts.

(** ** Batches *)

Section BatchShape.

Context {A : Type}.





End BatchShape.

(** ** The outcome of the run *)

Section RunOutcome.

Variables pdf_document page vector index : Type.
Variable PdfReader : bytes -> result pdf_document.
Variable pages : pdf_document -> list page.
Variable extract_text : page -> result str.
Variable encode : list str -> result (list vector).
Variable from_embeddings : list (str * vector) -> result index.

Local Notation "'chunks_of'" :=
  (Pipeline.chunks_of pdf_document page index PdfReader pages extract_text).
Local Notation "'Embed_call'" := (Pipeline.Embed_call vector index encode).
Local Notation "'encodes'" := (Pipeline.encodes vector encode).
Local Notation "'embed'" :=
  (Pipeline.map_batches index (Pipeline.Embed_call vector index encode) 100).
Local Notation "'main'" :=
  (Pipeline.main pdf_document page vector index PdfReader pages extract_text
     encode from_embeddings).

(** X6: [Embed.__call__] does not check the encoder's answer.  When the
    encoder returns fewer vectors than texts, the texts without vector are
    left out of the pairs; when it returns more, the vectors in excess are
    left out. *)
Theorem Embed_call_truncates :
  forall (text_batch : list str) (embeddings : list vector)
         (w : Pipeline.world index),
    encode text_batch = Ok embeddings ->
    exists pairs,
      Embed_call text_batch w = (Ok pairs, w)
      /\ length pairs = Nat.min (length text_batch) (length embeddings)
      /\ map fst pairs = firstn (length embeddings) text_batch
      /\ map snd pairs = firstn (length text_batch) embeddings.
Proof.
  intros text_batch embeddings w E.
  exists (zip text_batch embeddings). repeat split.
  - unfold Pipeline.Embed_call, Pipeline.bind, Pipeline.lift. now rewrite E.
  - unfold zip. apply length_combine.
  - apply zip_fst_firstn.
  - apply zip_snd_firstn.
Qed.

(** A stage whose function leaves the state as it is does so too. *)
Lemma flat_map_world {X Y} (fn : X -> Pipeline.M index (list Y)) :
  (forall x w, snd (fn x w) = w) ->
  forall rows w, snd (Pipeline.flat_map index fn rows w) = w.
Proof.
  intros H. induction rows as [| row rows IH]; intros w; [reflexivity |].
  cbn [Pipeline.flat_map]. unfold Pipeline.bind, Pipeline.ret.
  specialize (H row w).
  destruct (fn row w) as [[out | e] w0]; simpl in H; subst w0;
    [| reflexivity].
  specialize (IH w).
  destruct (Pipeline.flat_map index fn rows w) as [[outs | e] w1];
    simpl in *; exact IH.
Qed.

(** The embedding stage prints nothing and saves nothing. *)
Lemma embed_batches_world (bs : list (list str)) (w : Pipeline.world index) :
  snd (Pipeline.flat_map index Embed_call bs w) = w.
Proof.
  apply flat_map_world. intros b w0.
  unfold Pipeline.Embed_call, Pipeline.bind, Pipeline.lift, Pipeline.ret.
  now destruct (encode b).
Qed.


(** X8: when the index cannot be built, the run ends with the exception of
    the builder after its first line is printed: the second line is not
    printed and nothing is saved. *)
Theorem index_failure_saves_nothing :
  forall (documents : list bytes) (chunks : list str) (e : exn)
         (w w1 : Pipeline.world index),
    chunks_of documents w = (Ok chunks, w1) ->
    Forall encodes (Pipeline.batches 100 chunks) ->
    (forall pairs, map fst pairs = chunks -> from_embeddings pairs = Raise e) ->
    main documents w
    = (Raise e,
       Pipeline.World
         (Pipeline.stdout w1 ++ ["Creating FAISS Vector Index."%string])
         (Pipeline.faiss_index w)).
Proof.
  intros documents chunks e w w1 Hc He Hf.
  destruct (embed_stage_keeps vector index encode chunks w1 He)
    as [pairs [E [F _]]].
  pose proof (chunks_of_index pdf_document page index PdfReader pages
                extract_text documents w) as I.
  rewrite Hc in I. simpl in I.
  unfold Pipeline.main. unfold Pipeline.bind at 1. rewrite Hc.
  unfold Pipeline.bind at 1. rewrite E.
  unfold Pipeline.bind, Pipeline.print, Pipeline.lift. simpl.
  rewrite (Hf pairs F). now rewrite I.
Qed.

(** X9: the index is saved by a run that returns, and by no other: a run
    that ends with an exception, wherever it is raised, leaves the saved
    index as it was. *)
Theorem run_saves_all_or_nothing :
  forall (documents : list bytes) (w : Pipeline.world index),
    match main documents w with
    | (Ok _, w') =>
        exists pairs vector_store,
          from_embeddings pairs = Ok vector_store
          /\ Pipeline.faiss_index w' = Some vector_store
    | (Raise _, w') => Pipeline.faiss_index w' = Pipeline.faiss_index w
    end.
Proof.
  intros documents w.
  pose proof (chunks_of_index pdf_document page index PdfReader pages
                extract_text documents w) as I.
  unfold Pipeline.main. unfold Pipeline.bind at 1.
  destruct (chunks_of documents w) as [[chunks | e] w1]; simpl in I;
    [| exact I].
  unfold Pipeline.bind at 1. unfold Pipeline.map_batches.
  pose proof (embed_batches_world (Pipeline.batches 100 chunks) w1) as W.
  destruct (Pipeline.flat_map index Embed_call (Pipeline.batches 100 chunks)
              w1) as [[pairs | e] w2]; simpl in W; subst w2; [| exact I].
  unfold Pipeline.bind, Pipeline.print, Pipeline.lift, Pipeline.save_local.
  simpl.
  destruct (from_embeddings pairs) as [vector_store | e] eqn:V; simpl.
  - now exists pairs, vector_store.
  - exact I.
Qed.

End RunOutcome.

(** ** Pages without white space, short pages *)

Lemma chunk_count_step (n : nat) :
  (1000 < n)%nat ->
  S ((n - 900 - 1000 + 899) / 900) = ((n - 1000 + 899) / 900)%nat.
Proof.
  intros H. destruct (Nat.leb_spec n 1900).
  - replace (n - 900 - 1000)%nat with 0%nat by lia.
    change ((0 + 899) / 900)%nat with 0%nat.
    apply (Nat.div_unique _ 900 1 (n - 1000 + 899 - 900)); lia.
  - replace (n - 1000 + 899)%nat
      with ((n - 900 - 1000 + 899) + 1 * 900)%nat by lia.
    rewrite Nat.div_add by lia. lia.
Qed.

(** The chunks of a solid text, one after the other. *)
Lemma hard_cut_tail (n : nat) :
  forall t : str,
    (length t <= n)%nat -> solid t -> t <> [] ->
    exists tail,
      TextSplitter.chunks 1000 100 t = firstn 1000 t :: tail
      /\ concat (map (skipn 100) tail) = skipn 1000 t
      /\ length tail = ((length t - 1000 + 899) / 900)%nat
      /\ forall i chunk,
           nth_error (firstn 1000 t :: tail) i = Some chunk ->
           chunk = firstn 1000 (skipn (900 * i) t).
Proof.
  induction n as [| n IH]; intros t Hn Hs Hne.
  { destruct t; [congruence | simpl in Hn; lia]. }
  destruct (Nat.leb_spec (length t) 1000) as [Hle | Hgt].
  - exists []. rewrite chunks_short_1000 by assumption.
    rewrite firstn_all2 by exact Hle. rewrite skipn_all2 by exact Hle.
    repeat split.
    + replace (length t - 1000)%nat with 0%nat by lia. reflexivity.
    + intros [| i] chunk H; simpl in H.
      * inversion H; subst. rewrite Nat.mul_0_r. cbn [skipn].
        symmetry. now apply firstn_all2.
      * destruct i; discriminate.
  - rewrite chunks_solid_1000 by assumption.
    set (t' := skipn 900 t).
    assert (Lt' : length t' = (length t - 900)%nat)
      by (unfold t'; now rewrite length_skipn).
    destruct (IH t') as [tail [E [C [K P]]]].
    + lia.
    + now apply solid_skipn.
    + intros E. rewrite E in Lt'. simpl in Lt'. lia.
    + exists (firstn 1000 t' :: tail). rewrite E. repeat split.
      * cbn [map concat]. rewrite C.
        rewrite skipn_firstn_rest by lia.
        unfold t'. now rewrite skipn_skipn.
      * cbn [length]. rewrite K, Lt'. now apply chunk_count_step.
      * intros [| i] chunk H.
        -- cbn [nth_error] in H. inversion H; subst.
           now rewrite Nat.mul_0_r.
        -- cbn [nth_error] in H. rewrite (P i chunk H).
           unfold t'. rewrite skipn_skipn. f_equal. f_equal. lia.
Qed.

(** X10: the chunks of a page text without white space, by position: the
    i-th chunk is the 1000 characters of the text from position 900 i on
    (fewer at the end of the text), a text of more than 1000 characters has
    one chunk more for every 900 characters or part of them beyond 1000,
    and the text is read back from the chunks by dropping the first 100
    characters of every chunk after the first. *)
Theorem split_text_hard_cut :
  forall page_text : str,
    solid page_text -> page_text <> [] ->
    (forall i chunk,
        nth_error (Pipeline.split_text page_text) i = Some chunk ->
        chunk = firstn 1000 (skipn (900 * i) page_text))
    /\ length (Pipeline.split_text page_text)
       = S ((length page_text - 1000 + 899) / 900)
    /\ TextSplitter.rebuild 100 (Pipeline.split_text page_text) = page_text.
Proof.
  intros page_text Hs Hne. rewrite (split_text_solid_chunks _ Hs).
  destruct (hard_cut_tail _ page_text (le_n _) Hs Hne) as [tail [E [C [K P]]]].
  rewrite E. split; [exact P |]. split.
  - cbn [length]. f_equal. exact K.
  - unfold TextSplitter.rebuild. rewrite C. apply firstn_skipn.
Qed.

(** X10 at a page of 1500 characters. *)
Lemma split_text_hard_cut_witness :
  TextSplitter.rebuild 100 (Pipeline.split_text Sample.page_c) = Sample.page_c.
Proof.
  apply (split_text_hard_cut Sample.page_c page_c_solid).
  discriminate.
Defined.




(** X12: nothing of the page text is lost and nothing is added: the page
    text, with a space in the place of every newline, is read back from the
    chunks of [split_text] by dropping the first 100 characters of every
    chunk after the first. *)
Theorem split_text_rebuild :
  forall page_text : str,
    TextSplitter.rebuild 100 (Pipeline.split_text page_text)
    = replace newline space page_text.
Proof.
  intros page_text. rewrite split_text_unfold, rebuild_replace.
  f_equal. apply chunks_rebuild. lia.
Qed.

(** ** The page texts of a directory *)

Section DirectoryFacts.

Variables pdf_document page index : Type.
Variable PdfReader : bytes -> result pdf_document.
Variable pages : pdf_document -> list page.
Variable extract_text : page -> result str.

Local Notation "'convert_to_text'" :=
  (Pipeline.convert_to_text pdf_document page index PdfReader pages
     extract_text).
Local Notation "'chunks_of'" :=
  (Pipeline.chunks_of pdf_document page index PdfReader pages extract_text).
Local Notation "'file_ok'" :=
  (Pipeline.file_ok pdf_document page PdfReader pages extract_text).
Local Notation "'texts_of'" :=
  (Pipeline.texts_of pdf_document page PdfReader pages extract_text).

Lemma convert_to_text_file_ok (pdf_bytes : bytes) (w : Pipeline.world index) :
  file_ok pdf_bytes ->
  exists printed,
    convert_to_text pdf_bytes w
    = (Ok (texts_of pdf_bytes),
       Pipeline.World (Pipeline.stdout w ++ printed) (Pipeline.faiss_index w))
    /\ Forall (eq "parsing failed"%string) printed.
Proof.
  intros [E | [pdf_doc [E H]]];
    unfold Pipeline.convert_to_text, Pipeline.texts_of; rewrite E.
  - exists []. rewrite app_nil_r. split; [now destruct w | constructor].
  - rewrite (extract_pages_total page index extract_text _ H).
    eexists. split; [reflexivity |].
    apply Forall_forall. intros line Hl.
    apply in_map_iff in Hl as [p [<- _]]. reflexivity.
Qed.

Lemma flat_map_files_ok (documents : list bytes) :
  Forall file_ok documents ->
  forall w,
  exists printed,
    Pipeline.flat_map index convert_to_text documents w
    = (Ok (List.flat_map texts_of documents),
       Pipeline.World (Pipeline.stdout w ++ printed) (Pipeline.faiss_index w))
    /\ Forall (eq "parsing failed"%string) printed.
Proof.
  induction 1 as [| d ds Hd _ IH]; intros w.
  - exists []. simpl. unfold Pipeline.ret. rewrite app_nil_r.
    split; [now destruct w | constructor].
  - destruct (convert_to_text_file_ok d w Hd) as [printed1 [E1 F1]].
    destruct (IH (Pipeline.World (Pipeline.stdout w ++ printed1)
                    (Pipeline.faiss_index w))) as [printed2 [E2 F2]].
    exists (printed1 ++ printed2). split; [| now apply Forall_app].
    cbn [Pipeline.flat_map List.flat_map].
    unfold Pipeline.bind, Pipeline.ret. rewrite E1, E2. simpl.
    now rewrite app_assoc.
Qed.

(** X13: over files that are each refused with [PdfStreamError] or read to
    the end, the extraction returns, in whatever order the files are taken:
    the page texts are those of the files and the chunks those of the page
    texts, up to their order, and only lines of skipped pages are
    printed. *)
Theorem directory_page_texts :
  forall (documents schedule : list bytes) (w : Pipeline.world index),
    Permutation schedule documents ->
    Forall file_ok documents ->
    exists texts printed,
      Pipeline.flat_map index convert_to_text schedule w
      = (Ok texts,
         Pipeline.World (Pipeline.stdout w ++ printed)
                        (Pipeline.faiss_index w))
      /\ Permutation texts (List.flat_map texts_of documents)
      /\ Forall (eq "parsing failed"%string) printed
      /\ chunks_of schedule w
         = (Ok (List.flat_map Pipeline.split_text texts),
            Pipeline.World (Pipeline.stdout w ++ printed)
                           (Pipeline.faiss_index w))
      /\ Permutation (List.flat_map Pipeline.split_text texts)
           (List.flat_map Pipeline.split_text
              (List.flat_map texts_of documents)).
Proof.
  intros documents schedule w Hp H.
  assert (Hs : Forall file_ok schedule).
  { eapply Permutation_Forall; [| exact H]. now apply Permutation_sym. }
  destruct (flat_map_files_ok schedule Hs w) as [printed [F Q]].
  assert (P : Permutation (List.flat_map texts_of schedule)
                (List.flat_map texts_of documents))
    by now apply Permutation_flat_map.
  exists (List.flat_map texts_of schedule), printed.
  split; [exact F |]. split; [exact P |]. split; [exact Q |]. split.
  - unfold Pipeline.chunks_of, Pipeline.bind, Pipeline.ret. now rewrite F.
  - now apply Permutation_flat_map.
Qed.

End DirectoryFacts.

(** ** The further properties at sample inputs *)

(** X13 at a file of three pages, one of them skipped, and an empty file,
    taken in the other order. *)
Lemma directory_page_texts_witness :
  exists texts printed,
    Pipeline.flat_map Sample.index
      (Pipeline.convert_to_text _ _ Sample.index Sample.PdfReader Sample.pages
         Sample.extract_text) [[]; [Byte.x01]] Sample.w0
    = (Ok texts, Pipeline.World ([] ++ printed) None)
    /\ Permutation texts
         (List.flat_map
            (Pipeline.texts_of _ _ Sample.PdfReader Sample.pages
               Sample.extract_text) [[Byte.x01]; []])
    /\ Forall (eq "parsing failed"%string) printed.
Proof.
  destruct (directory_page_texts _ _ Sample.index Sample.PdfReader
              Sample.pages Sample.extract_text [[Byte.x01]; []]
              [[]; [Byte.x01]] Sample.w0)
    as [texts [printed [E [P [Q _]]]]].
  - apply perm_swap.
  - constructor; [| constructor; [left; reflexivity | constructor]].
    right. eexists. split; [reflexivity |].
    constructor; [right; eexists; reflexivity |].
    constructor; [left; reflexivity |].
    constructor; [right; eexists; reflexivity | constructor].
  - exists texts, printed. split; [exact E |]. split; [exact P | exact Q].
Defined.

(** X1 at three files, the second of which is empty. *)
Lemma refused_file_is_dropped_witness :
  Pipeline.main _ _ _ _ Sample.PdfReader Sample.pages Sample.extract_text
    Sample.encode Sample.from_embeddings
    ([[Byte.x02]] ++ [] :: [[Byte.x03]]) Sample.w0
  = Pipeline.main _ _ _ _ Sample.PdfReader Sample.pages Sample.extract_text
      Sample.encode Sample.from_embeddings
      ([[Byte.x02]] ++ [[Byte.x03]]) Sample.w0.
Proof.
  apply (refused_file_is_dropped _ _ _ _ Sample.PdfReader Sample.pages
           Sample.extract_text Sample.encode Sample.from_embeddings
           [[Byte.x02]] [[Byte.x03]] [] Sample.w0).
  reflexivity.
Defined.

(** X2 at a document whose third page fails. *)
Lemma page_failure_leaves_convert_to_text_witness :
  Pipeline.convert_to_text _ _ Sample.index Sample.PdfReader_failing_page
    Sample.pages Sample.extract_text [] Sample.w0
  = (Raise PdfStreamError, Pipeline.World ["parsing failed"%string] None).
Proof.
  apply (page_failure_leaves_convert_to_text _ _ Sample.index
           Sample.PdfReader_failing_page Sample.pages Sample.extract_text
           []
           [Ok (lit "one"); Raise BinasciiError; Raise PdfStreamError;
            Ok (lit "four")]
           [Ok (lit "one"); Raise BinasciiError] [Ok (lit "four")]
           (Raise PdfStreamError) PdfStreamError Sample.w0);
    try reflexivity; try discriminate.
  constructor; [right; eexists; reflexivity |].
  constructor; [left; reflexivity | constructor].
Defined.

(** X3 at a document of three pages, one of which is skipped. *)
Lemma every_page_returned_or_reported_witness :
  exists texts printed,
    Pipeline.convert_to_text _ _ Sample.index Sample.PdfReader Sample.pages
      Sample.extract_text [Byte.x01] Sample.w0
    = (Ok texts, Pipeline.World ([] ++ printed) None)
    /\ Forall (eq "parsing failed"%string) printed
    /\ (length texts + length printed = 3)%nat.
Proof.
  apply (every_page_returned_or_reported _ _ Sample.index Sample.PdfReader
           Sample.pages Sample.extract_text [Byte.x01]
           [Ok (lit "one"); Raise BinasciiError; Ok (lit "three")]
           Sample.w0); [reflexivity |].
  constructor; [right; eexists; reflexivity |].
  constructor; [left; reflexivity |].
  constructor; [right; eexists; reflexivity | constructor].
Defined.

(** X4 at three files, the second of which makes the reader fail. *)
Lemma file_failure_ends_run_witness :
  exists e' printed,
    Pipeline.main _ _ _ _ Sample.PdfReader Sample.pages Sample.extract_text
      Sample.encode Sample.from_embeddings
      [[Byte.x02]; [Byte.x00]; [Byte.x03]] Sample.w0
    = (Raise e', Pipeline.World ([] ++ printed) None)
    /\ Forall (eq "parsing failed"%string) printed.
Proof.
  destruct (file_failure_ends_run _ _ _ _ Sample.PdfReader Sample.pages
              Sample.extract_text Sample.encode Sample.from_embeddings
              [[Byte.x02]; [Byte.x00]; [Byte.x03]] [Byte.x00] PdfReadError
              Sample.w0) as [e' [printed [E [Q _]]]].
  - right. now left.
  - reflexivity.
  - discriminate.
  - exists e', printed. split; [exact E | exact Q].
Defined.


(** X6 at a batch of two texts and an encoder that returns one vector. *)
Lemma Embed_call_truncates_witness :
  exists pairs,
    Pipeline.Embed_call _ Sample.index Sample.encode_one
      [lit "a"; lit "bc"] Sample.w0 = (Ok pairs, Sample.w0)
    /\ length pairs = 1%nat
    /\ map fst pairs = [lit "a"]
    /\ map snd pairs = [[2]].
Proof.
  apply (Embed_call_truncates _ Sample.index Sample.encode_one
           [lit "a"; lit "bc"] [[2]] Sample.w0).
  reflexivity.
Defined.


(** X8 at a file of three pages and a builder that fails. *)
Lemma index_failure_saves_nothing_witness :
  Pipeline.main _ _ _ _ Sample.PdfReader Sample.pages Sample.extract_text
    Sample.encode Sample.from_embeddings_failing [[Byte.x03]] Sample.w0
  = (Raise RuntimeError,
     Pipeline.World ([] ++ ["Creating FAISS Vector Index."%string]) None).
Proof.
  apply (index_failure_saves_nothing _ _ _ _ Sample.PdfReader Sample.pages
           Sample.extract_text Sample.encode Sample.from_embeddings_failing
           [[Byte.x03]] [lit "one"; lit "two"; lit "three"] RuntimeError
           Sample.w0 Sample.w0).
  - vm_compute. reflexivity.
  - constructor; [| constructor]. eexists. split; reflexivity.
  - reflexivity.
Defined.
